(** * Conversation relay of the WhatsApp chatbot

    A shallow embedding of the two webhook handlers of the repository,

    - [app/whatsapp/app.py]       ([reply_to_whatsapp_message], Twilio transport),
    - [app/whatsapp_cloud_app.py] ([verify_webhook], [process_webhook], Cloud API),
    - [chat/clients/whatsapp_cloud.py] ([WhatsAppCloudClient], [parse_whatsapp_message]),

    and of the properties the specification states about them.

    Python strings are [string]s (characters are the code points below 256),
    the transcript is a [list Message], exceptions are an explicit [outcome],
    and every effect on the outside world is appended to a chronological
    [trace].  The mutable chat object, the trace and the counter of HTTP calls
    form the [World] that a small state-and-exception monad threads through
    the handlers; a raised exception keeps the mutations made before it, as in
    Python. *)

From Stdlib Require Import String Ascii List Arith Bool ZArith Lia.
Import ListNotations.

Open Scope string_scope.
Open Scope list_scope.

(** ** Python strings *)

Module PyStr.

Definition len (s : string) : nat := String.length s.

Fixpoint take (n : nat) (s : string) : string :=
  match n, s with
  | S n', String c s' => String c (take n' s')
  | _, _ => EmptyString
  end.

Fixpoint drop (n : nat) (s : string) : string :=
  match n, s with
  | S n', String _ s' => drop n' s'
  | _, _ => s
  end.

(** [s[i:j]] for [0 <= i]; indices past the end are clamped. *)
Definition slice (s : string) (i j : nat) : string := take (j - i) (drop i s).

(** [str.isspace] on one character (code points below 256). *)
Definition isspace (c : ascii) : bool :=
  let n := nat_of_ascii c in
  (((9 <=? n) && (n <=? 13)) || ((28 <=? n) && (n <=? 32))
   || (n =? 133) || (n =? 160))%nat.

Fixpoint lstrip (s : string) : string :=
  match s with
  | String c s' => if isspace c then lstrip s' else s
  | EmptyString => EmptyString
  end.

Fixpoint rstrip (s : string) : string :=
  match s with
  | String c s' =>
      match rstrip s' with
      | EmptyString => if isspace c then EmptyString else String c EmptyString
      | r => String c r
      end
  | EmptyString => EmptyString
  end.

Definition strip (s : string) : string := rstrip (lstrip s).

(** A string made of whitespace only (the empty string included). *)
Fixpoint blank (s : string) : bool :=
  match s with
  | String c s' => isspace c && blank s'
  | EmptyString => true
  end.

Definition endswith (s suffix : string) : bool :=
  (len suffix <=? len s)%nat && String.eqb (drop (len s - len suffix) s) suffix.

(** ["".join(parts)] *)
Definition join (parts : list string) : string :=
  fold_right String.append EmptyString parts.

Fixpoint replicate (n : nat) (c : ascii) : string :=
  match n with
  | O => EmptyString
  | S n' => String c (replicate n' c)
  end.

(** Truthiness of an optional string: [None] and [""] are falsy. *)
Definition truthy (o : option string) : bool :=
  match o with
  | Some s => negb (String.eqb s "")
  | None => false
  end.

End PyStr.

(** [range(start, stop, step)] for a positive [step]. *)
Definition py_range (start stop step : nat) : list nat :=
  map (fun k => start + k * step) (seq 0 ((stop - start + (step - 1)) / step)).

Definition ceil_div (a b : nat) : nat := (a + (b - 1)) / b.

(** ** The reply chunker (app.py 94-111, whatsapp_cloud_app.py 127-140) *)

Definition ellipsis : string := "...".

(** The body of the splitting loop at index [i]. *)
Definition chunk_at (reply : string) (i : nat) : string :=
  let chunk := PyStr.slice reply i (i + 1500) in
  if (i + 1500 <? PyStr.len reply)%nat then String.append chunk ellipsis else chunk.

(** The texts handed to the channel for one reply, in sending order. *)
Definition reply_chunks (reply : string) : list string :=
  if (1600 <? PyStr.len reply)%nat
  then map (chunk_at reply) (py_range 0 (PyStr.len reply) 1500)
  else [reply].

(** Reading a multi-part reply back: the suffix is taken off every part but
    the last one. *)
Definition drop_suffix (c : string) : string :=
  PyStr.slice c 0 (PyStr.len c - PyStr.len ellipsis).

Fixpoint strip_suffixes (cs : list string) : list string :=
  match cs with
  | [] => []
  | c :: rest =>
      match rest with
      | [] => [c]
      | _ :: _ => drop_suffix c :: strip_suffixes rest
      end
  end.

(** ** Data model *)

Inductive Role := system | user | assistant.

Definition Role_eqb (a b : Role) : bool :=
  match a, b with
  | system, system | user, user | assistant, assistant => true
  | _, _ => false
  end.

(** One transcript entry, the dict [{"role": ..., "content": ...}]. *)
Record Message := mkMessage { role : Role; content : string }.

Record Sender := mkSender { phone_number : string; name : string }.

(** Modelled from the spec: the conversation object of [OpenAIChatManager]
    ([app/whatsapp/chat.py] is not among the sources).  It owns the ordered
    transcript, the rendered system prompt, the goodbye template and the
    configuration the language bootstrap writes to. *)
Record Chat := mkChat {
  sender : Sender;
  messages : list Message;
  start_system_message : option string;
  goodbye_message : string;
  language : option string
}.

Definition set_messages (ms : list Message) (c : Chat) : Chat :=
  mkChat (sender c) ms (start_system_message c) (goodbye_message c) (language c).

Definition set_start_system_message (s : string) (c : Chat) : Chat :=
  mkChat (sender c) (messages c) (Some s) (goodbye_message c) (language c).

Definition set_language (l : string) (c : Chat) : Chat :=
  mkChat (sender c) (messages c) (start_system_message c) (goodbye_message c) (Some l).

(** Modelled from the spec: [chat.make_message(content, role)] builds the
    Message with that role and content. *)
Definition make_message (text : string) (r : Role) : Message := mkMessage r text.

(** The kinds of exception the modelled code raises. *)
Inductive exn :=
| KeyError | IndexError | TypeError | AttributeError | ValueError
| RequestException   (* an outbound HTTP call failed *)
| ServiceError.      (* a completion, transcription or image service failed *)

Inductive outcome (A : Type) :=
| Ok (a : A)
| Raise (e : exn).
Arguments Ok {A} a.
Arguments Raise {A} e.

(** Everything a handler does to the outside world, in program order.
    Transcript mutations are logged next to the sends so that their relative
    order can be read off the trace. *)
Inductive Event :=
| SendText (to text : string) (accepted : bool)
    (* [send_message]: one HTTP attempt and whether the channel took it *)
| SendFallback (to text : string)
    (* the [on_failure] text emitted in place of a refused message *)
| SendImage (to url : string) (caption : option string) (accepted : bool)
| MarkRead (message_id : string) (accepted : bool)
| Transcribe (media : string)
| DetectLanguage (text : string)
| Completion (transcript : list Message)
| GenerateImage (prompt : string)
| SetSystem (m : Message)      (* [chat.messages[0] = m] *)
| InsertSystem (m : Message)   (* [chat.messages.insert(0, m)] *)
| Append (m : Message)         (* [chat.add_message] *)
| Save.                        (* [chat.save()] *)

Record World := mkWorld {
  chat : Chat;
  trace : list Event;
  net_calls : nat    (* outbound HTTP calls made so far *)
}.

(** ** State and exception monad *)

Definition M (A : Type) : Type := World -> outcome A * World.

Definition ret {A} (a : A) : M A := fun w => (Ok a, w).

Definition bind {A B} (c : M A) (k : A -> M B) : M B :=
  fun w =>
    match c w with
    | (Ok a, w') => k a w'
    | (Raise e, w') => (Raise e, w')
    end.

Definition raise {A} (e : exn) : M A := fun w => (Raise e, w).

(** [try: c  except Exception: h] *)
Definition try_except {A} (c : M A) (h : exn -> M A) : M A :=
  fun w =>
    match c w with
    | (Ok a, w') => (Ok a, w')
    | (Raise e, w') => h e w'
    end.

Definition lift {A} (o : outcome A) : M A := fun w => (o, w).

Declare Scope monad_scope.
Delimit Scope monad_scope with monad.
Notation "x <- c ;; k" := (bind c (fun x => k))
  (at level 61, c at next level, right associativity) : monad_scope.
Notation "c ;; k" := (bind c (fun _ => k))
  (at level 61, right associativity) : monad_scope.
Open Scope monad_scope.

Definition get_chat : M Chat := fun w => (Ok (chat w), w).

Definition modify_chat (f : Chat -> Chat) : M unit :=
  fun w => (Ok tt, mkWorld (f (chat w)) (trace w) (net_calls w)).

Definition emit (e : Event) : M unit :=
  fun w => (Ok tt, mkWorld (chat w) (trace w ++ [e]) (net_calls w)).

(** The number of the HTTP call about to be made; the counter moves on. *)
Definition next_call : M nat :=
  fun w => (Ok (net_calls w), mkWorld (chat w) (trace w) (S (net_calls w))).

(** [for x in xs: body(x)]; an exception leaves the loop. *)
Fixpoint for_each {A} (xs : list A) (body : A -> M unit) : M unit :=
  match xs with
  | [] => ret tt
  | x :: rest => body x ;; for_each rest body
  end.

Definition when (b : bool) (c : M unit) : M unit := if b then c else ret tt.

(** Modelled from the spec: [chat.add_message(content, role)] appends one
    Message to the transcript. *)
Definition add_message (text : string) (r : Role) : M unit :=
  modify_chat (fun c => set_messages (messages c ++ [make_message text r]) c) ;;
  emit (Append (make_message text r)).

(** Modelled from the spec: [chat.save()] persists the conversation; the
    durability mechanism is unspecified, so it is a logged effect. *)
Definition save : M unit := emit Save.

(** HTTP responses of the handlers. *)
Inductive Body :=
| StatusJson (status : string)      (* [jsonify({"status": status})] *)
| Plain (text : option string).     (* a bare string (or [None]) *)

Definition Response : Type := Body * nat.

(** ** JSON values and the Python operations used on them *)

#[local] Unset Elimination Schemes.
Inductive json :=
| JNull
| JBool (b : bool)
| JNum (z : Z)
| JStr (s : string)
| JArr (items : list json)
| JObj (fields : list (string * json)).
#[local] Set Elimination Schemes.

Fixpoint assoc (k : string) (fields : list (string * json)) : option json :=
  match fields with
  | [] => None
  | (k', v) :: rest => if String.eqb k k' then Some v else assoc k rest
  end.

(** [v[key]] with a string key. *)
Definition getitem (v : json) (key : string) : outcome json :=
  match v with
  | JObj fields =>
      match assoc key fields with
      | Some x => Ok x
      | None => Raise KeyError
      end
  | _ => Raise TypeError
  end.

(** [v[0]] *)
Definition getitem0 (v : json) : outcome json :=
  match v with
  | JArr (x :: _) => Ok x
  | JArr [] => Raise IndexError
  | JStr (String c _) => Ok (JStr (String c EmptyString))
  | JStr EmptyString => Raise IndexError
  | JObj _ => Raise KeyError           (* the keys of a JSON object are strings *)
  | _ => Raise TypeError
  end.

(** [key in v] *)
Definition contains (key : string) (v : json) : outcome bool :=
  match v with
  | JObj fields => Ok (match assoc key fields with Some _ => true | None => false end)
  | JArr items =>
      Ok (existsb (fun x => match x with JStr s => String.eqb s key | _ => false end) items)
  | JStr s => Ok (match String.index 0 key s with Some _ => true | None => false end)
  | _ => Raise TypeError
  end.

(** [v.get(key, default)] *)
Definition dict_get (v : json) (key : string) (default : json) : outcome json :=
  match v with
  | JObj fields =>
      Ok (match assoc key fields with Some x => x | None => default end)
  | _ => Raise AttributeError
  end.

(** [v == "s"] *)
Definition eq_str (v : json) (s : string) : bool :=
  match v with
  | JStr s' => String.eqb s' s
  | _ => false
  end.

Definition obind {A B} (o : outcome A) (k : A -> outcome B) : outcome B :=
  match o with
  | Ok a => k a
  | Raise e => Raise e
  end.

Notation "x <~ c ;; k" := (obind c (fun x => k))
  (at level 61, c at next level, right associativity) : monad_scope.

(** The dict returned by [parse_whatsapp_message]; a Python [None] is
    [JNull]. *)
Record Parsed := mkParsed {
  p_from : json;
  p_name : json;
  p_message_id : json;
  p_timestamp : json;
  p_type : json;
  p_text : json;
  p_image : json;
  p_audio : json
}.

(** whatsapp_cloud.py 117-140, before the [except] clause. *)
Definition parse_body (webhook_data : json) : outcome (option Parsed) :=
  e0 <~ getitem webhook_data "entry" ;;
  entry <~ getitem0 e0 ;;
  c0 <~ getitem entry "changes" ;;
  changes <~ getitem0 c0 ;;
  value <~ getitem changes "value" ;;
  has <~ contains "messages" value ;;
  if has : bool then
    m0 <~ getitem value "messages" ;;
    message <~ getitem0 m0 ;;
    k0 <~ getitem value "contacts" ;;
    contact <~ getitem0 k0 ;;
    from <~ getitem message "from" ;;
    profile <~ getitem contact "profile" ;;
    nm <~ getitem profile "name" ;;
    id <~ getitem message "id" ;;
    ts <~ getitem message "timestamp" ;;
    ty <~ getitem message "type" ;;
    ty1 <~ getitem message "type" ;;
    text <~ (if eq_str ty1 "text"
             then t <~ dict_get message "text" (JObj []) ;;
                  dict_get t "body" (JStr "")
             else Ok JNull) ;;
    ty2 <~ getitem message "type" ;;
    image <~ (if eq_str ty2 "image" then dict_get message "image" JNull else Ok JNull) ;;
    ty3 <~ getitem message "type" ;;
    audio <~ (if eq_str ty3 "audio" then dict_get message "audio" JNull else Ok JNull) ;;
    Ok (Some (mkParsed from nm id ts ty text image audio))
  else Ok None.

(** [parse_whatsapp_message]: [KeyError] and [IndexError] are logged and turned
    into [None]; any other exception leaves the function. *)
Definition parse_whatsapp_message (webhook_data : json) : outcome (option Parsed) :=
  match parse_body webhook_data with
  | Raise KeyError | Raise IndexError => Ok None
  | r => r
  end.

(** The collaborators behind the handlers (the conversation, the completion
    and the channel) are modelled on strings, so the handler is modelled on
    the messages whose id, sender, display name and text are JSON strings, the
    messages the Cloud API sends ([text_fields_are_strings] below).  The code
    itself hands any value on as it is; [as_str] is the edge of the model, not
    a check of the code, and what is stated about the turn of the Cloud
    handler is stated for string fields. *)
Definition as_str (v : json) : outcome string :=
  match v with
  | JStr s => Ok s
  | _ => Raise TypeError
  end.

(** ** Webhook verification (whatsapp_cloud_app.py 61-75) *)

Definition opt_eq_str (o : option string) (s : string) : bool :=
  match o with
  | Some s' => String.eqb s' s
  | None => false
  end.

(** [env_token] is the value of [WHATSAPP_VERIFY_TOKEN] in the environment,
    [mode], [token] and [challenge] the three query arguments. *)
Definition verify_webhook (env_token mode token challenge : option string) : Response :=
  let verify_token :=
    match env_token with Some t => t | None => "your-verify-token" end in
  if opt_eq_str mode "subscribe" && opt_eq_str token verify_token
  then (Plain challenge, 200)
  else (Plain (Some "Forbidden"), 403).

(** ** The inbound message of the Twilio transport *)

Inductive MediaType := text_message | image_message | audio_message.

(** Modelled from the spec: the canonical record the Adapter
    ([parse_request_values] of [chat/clients/twilio.py], not among the
    sources) normalizes a request to.  [media_ref] is [None] for an empty or
    failed media payload. *)
Record Inbound := mkInbound {
  in_type : MediaType;
  in_text : option string;
  media_ref : option string
}.

(** The fields of [request.values] the handler reads itself. *)
Record TwilioRequest := mkTwilioRequest {
  From : string;
  ProfileName : option string;
  inbound : Inbound
}.

Definition dquote : string := String (ascii_of_nat 34) EmptyString.

(** The f-string [[img:"{img_prompt}"]] of app.py 116. *)
Definition img_audit (img_prompt : string) : string :=
  String.append "[img:"
    (String.append dquote (String.append img_prompt (String.append dquote "]"))).

Definition didnt_understand : string :=
  "Sorry, I didn't understand that. Please try again.".

Definition image_apology : string :=
  "Sorry, I couldn't generate the image. Please try again.".

Definition ok_response : Response := (StatusJson "ok", 200).
Definition error_response : Response := (StatusJson "error", 500).

(** [msg] after the emptiness check, where it is known to be a string. *)
Definition the (msg : option string) : string :=
  match msg with Some m => m | None => EmptyString end.

(** ** The handlers *)

Section Handlers.

(** The outside world.  [net_ok n] tells whether the [n]-th outbound HTTP call
    is accepted by the channel; the other variables are the services and
    library functions the handlers call. *)
Variable net_ok : nat -> bool.
(** [chat_completion(messages, **options)] of
    [chat/handlers/openai/completions.py]: the content of the first choice, or
    the exception of the API client. *)
Variable chatgpt_completion : list Message -> outcome string.
(** [voice_transcription(url_or_file)] of [chat/handlers/openai/speech.py] *)
Variable whisper_transcription : string -> outcome string.
(** [text_to_image(prompt)] of [chat/handlers/openai/images.py]: the URL of
    the image, [None] when the service returns no data or no URL. *)
Variable text_to_image : string -> outcome (option string).
(** The language detection behind [ensure_user_language]
    ([language_detection] of [chat/handlers/openai/completions.py]): the
    language, or the exception of the completion service. *)
Variable language_detection : string -> outcome string.
(** [verify_image_generation(reply)] of [app/handlers] (not among the
    sources): the cleaned reply and the captured prompt, if any. *)
Variable verify_image_generation : string -> string * option string.
(** [check_conversation_end(msg, chat)] of [app/handlers], the classifier of
    the conversation-ending intent. *)
Variable check_conversation_end : string -> Chat -> bool.
(** [str.format] with keyword arguments: the rendered text, or the [KeyError],
    [IndexError] or [ValueError] of a template with a field that is not among
    the keyword arguments or with a stray brace. *)
Variable format : string -> list (string * string) -> outcome string.
(** [chat_options["start_system_message"]], read once at start-up. *)
Variable start_template : option string.

(** *** Channel clients *)

(** Modelled from the spec: [TwilioWhatsAppClient.send_message(body, to,
    on_failure)] ([chat/clients/twilio.py] is not among the sources).  A
    refused send is swallowed; the [on_failure] text, when there is one, is
    emitted in place of the refused message. *)
Definition twilio_send_message (body to : string) (on_failure : option string) : M unit :=
  n <- next_call ;;
  emit (SendText to body (net_ok n)) ;;
  if net_ok n then ret tt
  else match on_failure with
       | Some apology => emit (SendFallback to apology)
       | None => ret tt
       end.

(** Modelled from the spec: the Twilio client relays an image as a media
    message; a refused send is swallowed as for text. *)
Definition twilio_send_image (to url : string) : M unit :=
  n <- next_call ;;
  emit (SendImage to url None (net_ok n)).

(** [WhatsAppCloudClient.send_message] (whatsapp_cloud.py 27-57): the
    [RequestException] is logged and raised again. *)
Definition cloud_send_message (to text : string) : M unit :=
  n <- next_call ;;
  emit (SendText to text (net_ok n)) ;;
  if net_ok n then ret tt else raise RequestException.

(** [WhatsAppCloudClient.send_image] (whatsapp_cloud.py 59-91) *)
Definition cloud_send_image (to image_url : string) (caption : option string) : M unit :=
  n <- next_call ;;
  emit (SendImage to image_url (if PyStr.truthy caption then caption else None) (net_ok n)) ;;
  if net_ok n then ret tt else raise RequestException.

(** [WhatsAppCloudClient.mark_as_read] (whatsapp_cloud.py 93-114) *)
Definition cloud_mark_as_read (message_id : string) : M unit :=
  n <- next_call ;;
  emit (MarkRead message_id (net_ok n)) ;;
  if net_ok n then ret tt else raise RequestException.

(** *** Collaborators of [app/handlers] *)

(** Modelled from the spec: [verify_and_process_media(message, chat)].  A
    voice note is handed to the Transcription Service, whose text becomes the
    content of the turn (a service error propagates); an empty or failed media
    payload yields the empty string; an image has no transcription, its
    content is the accompanying text, empty when there is none. *)
Definition verify_and_process_media (m : Inbound) : M (option string) :=
  match in_type m with
  | text_message => ret (in_text m)
  | audio_message =>
      match media_ref m with
      | None => ret (Some EmptyString)
      | Some ref =>
          emit (Transcribe ref) ;;
          t <- lift (whisper_transcription ref) ;;
          ret (Some t)
      end
  | image_message =>
      ret (Some (match in_text m with Some t => t | None => EmptyString end))
  end.

(** Modelled from the spec: [ensure_user_language(chat, text)] runs the
    language detection on the text and applies its result to the configuration
    of the conversation.  The detection is a call of the completion service;
    its failure is not retried and propagates. *)
Definition ensure_user_language (text : string) : M unit :=
  emit (DetectLanguage text) ;;
  lang <- lift (language_detection text) ;;
  modify_chat (set_language lang).

(** Modelled from the spec: [check_and_send_image_generation(prompt, chat,
    client)] invokes the Image Generation Service; on success it relays the
    image through the client and returns its reference, on failure it sends a
    fixed apology through the client. *)
Definition check_and_send_image_generation
    (prompt : string) (send_image : string -> M unit) (send_text : string -> M unit)
  : M (option string) :=
  emit (GenerateImage prompt) ;;
  match text_to_image prompt with
  | Ok (Some url) => send_image url ;; ret (Some url)
  | _ => send_text image_apology ;; ret None
  end.

(** *** [app/whatsapp/app.py] *)

(** app.py 139-143 *)
Definition check_message_empty (msg : option string) : bool :=
  match msg with
  | None => true
  | Some m => String.eqb (PyStr.strip m) EmptyString
  end.

(** app.py 125-137 *)
Definition message_empty_or_goodbye (msg : option string) : M bool :=
  c <- get_chat ;;
  if check_message_empty msg then
    twilio_send_message didnt_understand (phone_number (sender c)) None ;;
    ret true
  else if check_conversation_end (the msg) c then
    goodbye <- lift (format (goodbye_message c) [("user", name (sender c))]) ;;
    twilio_send_message goodbye (phone_number (sender c)) None ;;
    ret true
  else ret false.

(** [chat.messages[0] = m]; an empty list raises [IndexError]. *)
Definition setitem0 (m : Message) : M unit :=
  c <- get_chat ;;
  match messages c with
  | [] => raise IndexError
  | _ :: rest => modify_chat (set_messages (m :: rest)) ;; emit (SetSystem m)
  end.

(** app.py 72-76 *)
Definition twilio_resolve_system (today sender_name : string) : M unit :=
  match start_template with
  | Some template =>
      if PyStr.truthy start_template then
        rendered <- lift (format template [("user", sender_name); ("today", today)]) ;;
        modify_chat (set_start_system_message rendered) ;;
        setitem0 (make_message rendered system)
      else ret tt
  | None => ret tt
  end.

(** app.py 94-111 *)
Definition twilio_relay (reply : string) : M unit :=
  c <- get_chat ;;
  if (1600 <? PyStr.len reply)%nat then
    for_each (py_range 0 (PyStr.len reply) 1500) (fun i =>
      twilio_send_message (chunk_at reply i) (phone_number (sender c))
        (Some didnt_understand))
  else
    twilio_send_message reply (phone_number (sender c)) (Some didnt_understand).

(** app.py 89-92 and whatsapp_cloud_app.py 120-124: the completion of the
    transcript, trimmed, and the directive taken out of it. *)
Definition generate_reply : M (string * option string) :=
  c <- get_chat ;;
  emit (Completion (messages c)) ;;
  raw <- lift (chatgpt_completion (messages c)) ;;
  ret (verify_image_generation (PyStr.strip raw)).

(** app.py 115-117 *)
Definition twilio_image_step (img_prompt : option string) : M unit :=
  match img_prompt with
  | Some p =>
      if PyStr.truthy img_prompt then
        add_message (img_audit p) system ;;
        c <- get_chat ;;
        _ <- check_and_send_image_generation p
               (twilio_send_image (phone_number (sender c)))
               (fun t => twilio_send_message t (phone_number (sender c)) None) ;;
        ret tt
      else ret tt
  | None => ret tt
  end.

(** app.py 93-123, from the relay of the reply to the end of the turn. *)
Definition twilio_reply_steps (reply : string) (img_prompt : option string) : M Response :=
  twilio_relay reply ;;
  add_message reply assistant ;;
  twilio_image_step img_prompt ;;
  save ;;
  ret ok_response.

(** app.py 84-123, the turn once the termination check has let it pass. *)
Definition twilio_active_turn (msg : option string) : M Response :=
  c <- get_chat ;;
  when (List.length (messages c) =? 1)%nat (ensure_user_language (the msg)) ;;
  add_message (the msg) user ;;
  r <- generate_reply ;;
  twilio_reply_steps (fst r) (snd r).

(** app.py 63-123.  The world's [chat] is the conversation
    [OpenAIChatManager.get_or_create] returns for the sender. *)
Definition reply_to_whatsapp_message (today : string) (req : TwilioRequest) : M Response :=
  let sender_name :=
    match ProfileName req with Some n => n | None => From req end in
  twilio_resolve_system today sender_name ;;
  msg <- verify_and_process_media (inbound req) ;;
  stop <- message_empty_or_goodbye msg ;;
  if stop : bool then ret ok_response
  else twilio_active_turn msg.


(** *** [app/whatsapp_cloud_app.py] *)

(** whatsapp_cloud_app.py 105-110 *)
Definition cloud_resolve_system (today sender_name : string) : M unit :=
  match start_template with
  | Some template =>
      if PyStr.truthy start_template then
        rendered <- lift (format template [("user", sender_name); ("today", today)]) ;;
        modify_chat (set_start_system_message rendered) ;;
        c <- get_chat ;;
        let absent :=
          match messages c with
          | [] => true
          | m :: _ => negb (Role_eqb (role m) system)
          end in
        if absent then
          modify_chat (fun c => set_messages (make_message rendered system :: messages c) c) ;;
          emit (InsertSystem (make_message rendered system))
        else ret tt
      else ret tt
  | None => ret tt
  end.

(** whatsapp_cloud_app.py 127-140 *)
Definition cloud_relay (reply to : string) : M unit :=
  if (1600 <? PyStr.len reply)%nat then
    for_each (py_range 0 (PyStr.len reply) 1500) (fun i =>
      cloud_send_message to (chunk_at reply i))
  else
    cloud_send_message to reply.

(** whatsapp_cloud_app.py 146-162 *)
Definition cloud_image_step (img_prompt : option string) (to : string) : M unit :=
  match img_prompt with
  | Some p =>
      if PyStr.truthy img_prompt then
        try_except
          (image_url <- check_and_send_image_generation p
                          (fun url => cloud_send_image to url None)
                          (cloud_send_message to) ;;
           match image_url with
           | Some url =>
               if PyStr.truthy image_url
               then cloud_send_image to url
                      (Some (String.append "Generated image: " p))
               else ret tt
           | None => ret tt
           end)
          (fun _ => cloud_send_message to image_apology)
      else ret tt
  | None => ret tt
  end.

(** whatsapp_cloud_app.py 126-164, from the relay of the reply to the end of
    the turn. *)
Definition cloud_reply_steps (reply : string) (img_prompt : option string) (to : string)
  : M Response :=
  cloud_relay reply to ;;
  add_message reply assistant ;;
  cloud_image_step img_prompt to ;;
  ret ok_response.

(** whatsapp_cloud_app.py 112-164, the turn on the text [text] sent by
    [from]. *)
Definition cloud_active_turn (text from : string) : M Response :=
  c <- get_chat ;;
  when (List.length (messages c) =? 1)%nat (ensure_user_language text) ;;
  add_message text user ;;
  r <- generate_reply ;;
  cloud_reply_steps (fst r) (snd r) from.

(** whatsapp_cloud_app.py 94-164, a text message. *)
Definition cloud_text_turn (today : string) (md : Parsed) : M Response :=
  message_id <- lift (as_str (p_message_id md)) ;;
  cloud_mark_as_read message_id ;;
  from <- lift (as_str (p_from md)) ;;
  sender_name <- lift (as_str (p_name md)) ;;
  cloud_resolve_system today sender_name ;;
  text <- lift (as_str (p_text md)) ;;
  cloud_active_turn text from.

(** whatsapp_cloud_app.py 94-110, a text message up to the resolve step: the
    read receipt and the system message. *)
Definition cloud_intake (today message_id sender_name : string) : M unit :=
  cloud_mark_as_read message_id ;;
  cloud_resolve_system today sender_name.

(** whatsapp_cloud_app.py 81-164, the body of the [try]. *)
Definition process_webhook_body (today : string) (data : json) : M Response :=
  message_data <- lift (parse_whatsapp_message data) ;;
  match message_data with
  | None => ret ok_response
  | Some md =>
      if negb (eq_str (p_type md) "text") then ret ok_response
      else cloud_text_turn today md
  end.

(** whatsapp_cloud_app.py 78-168 *)
Definition process_webhook (today : string) (data : json) : M Response :=
  try_except (process_webhook_body today data) (fun _ => ret error_response).

(** A conversation over several requests: the world left by one turn is the
    one the next turn starts from.  An exception that leaves the Twilio
    handler ends that request only. *)
Fixpoint twilio_turns (reqs : list (string * TwilioRequest)) (w : World) : World :=
  match reqs with
  | [] => w
  | (today, req) :: rest => twilio_turns rest (snd (reply_to_whatsapp_message today req w))
  end.

Fixpoint cloud_turns (reqs : list (string * json)) (w : World) : World :=
  match reqs with
  | [] => w
  | (today, data) :: rest => cloud_turns rest (snd (process_webhook today data w))
  end.

End Handlers.

(** ** Reading traces *)

(** The texts handed to [send_message], in order. *)
Fixpoint sent_texts (tr : list Event) : list string :=
  match tr with
  | [] => []
  | SendText _ text _ :: rest => text :: sent_texts rest
  | _ :: rest => sent_texts rest
  end.

(** What a user ends up reading: accepted texts and fallback texts. *)
Fixpoint delivered_texts (tr : list Event) : list string :=
  match tr with
  | [] => []
  | SendText _ text true :: rest => text :: delivered_texts rest
  | SendFallback _ text :: rest => text :: delivered_texts rest
  | _ :: rest => delivered_texts rest
  end.

Definition is_append_of (r : Role) (e : Event) : bool :=
  match e with
  | Append m => Role_eqb (role m) r
  | _ => false
  end.

Definition is_detect (e : Event) : bool :=
  match e with DetectLanguage _ => true | _ => false end.

Definition is_generate (e : Event) : bool :=
  match e with GenerateImage _ => true | _ => false end.

Definition is_send (e : Event) : bool :=
  match e with
  | SendText _ _ _ | SendFallback _ _ | SendImage _ _ _ _ => true
  | _ => false
  end.

Definition is_transcribe (e : Event) : bool :=
  match e with Transcribe _ => true | _ => false end.

Definition count (p : Event -> bool) (tr : list Event) : nat :=
  List.length (filter p tr).

(** Neither a language bootstrap nor the append of a user message. *)
Definition quiet_ev (e : Event) : bool :=
  negb (is_detect e) && negb (is_append_of user e).

Section Relays.

Variable net_ok : nat -> bool.

(** The events of sending [texts] one after the other through the Twilio
    client with the fallback [apology], the first HTTP call being number [n]. *)
Fixpoint twilio_events (to apology : string) (n : nat) (texts : list string) : list Event :=
  match texts with
  | [] => []
  | t :: rest =>
      SendText to t (net_ok n)
        :: (if net_ok n then [] else [SendFallback to apology])
        ++ twilio_events to apology (S n) rest
  end.

(** The same through the Cloud client: the first refused send is the last
    one. *)
Fixpoint cloud_events (to : string) (n : nat) (texts : list string) : list Event :=
  match texts with
  | [] => []
  | t :: rest =>
      SendText to t (net_ok n)
        :: (if net_ok n then cloud_events to (S n) rest else [])
  end.

(** Whether the [k] HTTP calls from number [n] on are all accepted. *)
Fixpoint all_accepted (n k : nat) : bool :=
  match k with
  | O => true
  | S k' => net_ok n && all_accepted (S n) k'
  end.

End Relays.


(** An event that records something in the conversation: an appended message
    or a save. *)
Definition is_record (e : Event) : bool :=
  match e with
  | Append _ | InsertSystem _ | Save => true
  | _ => false
  end.

(** ** Computations that leave the bootstrap alone *)

(** [steps R c]: whatever the world, [c] only adds events to the trace, none
    of them a language bootstrap or the append of a user message, and the
    transcript it leaves is related by [R] to the one it found. *)
Definition steps (R : list Message -> list Message -> Prop) {A} (c : M A) : Prop :=
  forall w,
    exists evs,
      trace (snd (c w)) = trace w ++ evs
      /\ forallb quiet_ev evs = true
      /\ R (messages (chat w)) (messages (chat (snd (c w)))).

(** The transcript may grow. *)
Definition grown (a b : list Message) : Prop := List.length a <= List.length b.

(** The transcript keeps its length. *)
Definition same_length (a b : list Message) : Prop := List.length a = List.length b.

(** The prompt honoured at the end of the turn: a non-empty captured one. *)
Definition honored (img_prompt : option string) : option string :=
  if PyStr.truthy img_prompt then img_prompt else None.

(** The audit message the Twilio handler records for a directive. *)
Definition audit_of (img_prompt : option string) : list Message :=
  match honored img_prompt with
  | Some p => [make_message (img_audit p) system]
  | None => []
  end.

(** What reaches the user when the [n]-th and later sends go through the
    Twilio client: the text itself, or the apology in its place. *)
Fixpoint substituted (net_ok : nat -> bool) (apology : string) (n : nat)
    (texts : list string) : list string :=
  match texts with
  | [] => []
  | t :: rest =>
      (if net_ok n then t else apology) :: substituted net_ok apology (S n) rest
  end.



(** What the bootstrap of a turn comes to: nothing when the turn is not the
    first one, else the outcome of the language detection. *)
Definition bootstrap_result (language_detection : string -> outcome string)
    (first : bool) (text : string) : outcome unit :=
  if first then
    match language_detection text with
    | Ok _ => Ok tt
    | Raise e => Raise e
    end
  else Ok tt.




(** ** Concrete worlds, for examples *)

(** A world in which nothing has happened yet. *)
Definition quiet_world (c : Chat) : World := mkWorld c [] 0.

(** A conversation as it is right after its creation. *)
Definition demo_chat : Chat :=
  mkChat (mkSender "+34600000000" "Ada")
         [mkMessage system "You are a helpful assistant."]
         (Some "You are a helpful assistant.")
         "Goodbye! I'll be here if you need me."
         None.

(** Whether [s] is made of decimal digits only (the empty string included). *)
Fixpoint all_digits (s : string) : bool :=
  match s with
  | EmptyString => true
  | String c rest =>
      (48 <=? nat_of_ascii c)%nat && (nat_of_ascii c <=? 57)%nat && all_digits rest
  end.

(** A small [str.format] for the examples, on templates made of text, the
    escapes [{{] and [}}], and fields [{name}] with a plain name (no
    conversion, format specification, attribute or index).  A field is
    replaced by the keyword argument of its name, and raises [KeyError] when
    there is none; an empty or numeric name is a position, and raises
    [IndexError] since no positional argument is given; a brace that neither
    opens nor closes a field raises [ValueError]. *)
Fixpoint demo_format_from (field : option string) (template : string)
    (kwargs : list (string * string)) : outcome string :=
  match template with
  | EmptyString =>
      match field with
      | None => Ok EmptyString
      | Some _ => Raise ValueError
      end
  | String c rest =>
      match field with
      | None =>
          if Ascii.eqb c "{"%char then
            match rest with
            | String "{"%char rest' =>
                r <~ demo_format_from None rest' kwargs ;; Ok (String c r)
            | _ => demo_format_from (Some EmptyString) rest kwargs
            end
          else if Ascii.eqb c "}"%char then
            match rest with
            | String "}"%char rest' =>
                r <~ demo_format_from None rest' kwargs ;; Ok (String c r)
            | _ => Raise ValueError
            end
          else r <~ demo_format_from None rest kwargs ;; Ok (String c r)
      | Some f =>
          if Ascii.eqb c "}"%char then
            if all_digits f then Raise IndexError
            else
              match find (fun kv => String.eqb (fst kv) f) kwargs with
              | Some kv =>
                  r <~ demo_format_from None rest kwargs ;;
                  Ok (String.append (snd kv) r)
              | None => Raise KeyError
              end
          else demo_format_from (Some (String.append f (String c EmptyString))) rest kwargs
      end
  end.

Definition demo_format : string -> list (string * string) -> outcome string :=
  demo_format_from None.

Definition demo_template : string := "You are helping {user}. Today is {today}.".

(** A completion service that answers every transcript the same way. *)
Definition demo_completion (answer : string) : list Message -> outcome string :=
  fun _ => Ok answer.

Definition demo_whisper : string -> outcome string := fun _ => Ok "hello from a voice note".

Definition demo_text_to_image : string -> outcome (option string) :=
  fun _ => Ok (Some "https://images.example/1.png").

Definition demo_language : string -> outcome string := fun _ => Ok "english".


(** No directive in the reply. *)
Definition demo_no_directive : string -> string * option string :=
  fun reply => (reply, None).

(** The directive of the scenario of the specification. *)
Definition demo_directive : string -> string * option string :=
  fun _ => ("Here is your answer.", Some "a red bicycle").

Definition demo_end : string -> Chat -> bool :=
  fun msg _ => String.eqb msg "bye".

Definition always_accepted : nat -> bool := fun _ => true.

Definition demo_text_request (text : string) : TwilioRequest :=
  mkTwilioRequest "+34600000000" (Some "Ada") (mkInbound text_message (Some text) None).

(** A well-formed Cloud API webhook body carrying the text [text]. *)
Definition demo_webhook (text : string) : json :=
  JObj [("entry", JArr [JObj [("changes", JArr [JObj [("value",
    JObj [("messages", JArr [JObj [("from", JStr "34600000000");
                                   ("id", JStr "wamid.1");
                                   ("timestamp", JStr "1700000000");
                                   ("type", JStr "text");
                                   ("text", JObj [("body", JStr text)])]]);
          ("contacts", JArr [JObj [("profile", JObj [("name", JStr "Ada")])]])])]])]])].

(** A channel that refuses the HTTP call number [k] and takes the others. *)
Definition refuse_at (k : nat) : nat -> bool := fun n => negb (n =? k)%nat.

(** The completion of the scenario with a directive. *)
Definition demo_directive_answer : string :=
  String.append "Here is your answer. " (img_audit "a red bicycle").

(** A Cloud API webhook body carrying a voice note. *)
Definition demo_audio_webhook : json :=
  JObj [("entry", JArr [JObj [("changes", JArr [JObj [("value",
    JObj [("messages", JArr [JObj [("from", JStr "34600000000");
                                   ("id", JStr "wamid.2");
                                   ("timestamp", JStr "1700000001");
                                   ("type", JStr "audio");
                                   ("audio", JObj [("id", JStr "media.7")])]]);
          ("contacts", JArr [JObj [("profile", JObj [("name", JStr "Ada")])]])])]])]])].

(** A webhook body whose [value] is [null]. *)
Definition demo_null_value_webhook : json :=
  JObj [("entry", JArr [JObj [("changes", JArr [JObj [("value", JNull)]])]])].

(** * The rest of the code *)

(** ** Webhook bodies as the Cloud API sends them *)

(** A text message [body] from [from] (display name [display_name]). *)
Definition text_webhook (from display_name id timestamp body : string) : json :=
  JObj [("entry", JArr [JObj [("changes", JArr [JObj [("value",
    JObj [("messages", JArr [JObj [("from", JStr from);
                                   ("id", JStr id);
                                   ("timestamp", JStr timestamp);
                                   ("type", JStr "text");
                                   ("text", JObj [("body", JStr body)])]]);
          ("contacts", JArr [JObj [("profile",
                                    JObj [("name", JStr display_name)])]])])]])]])].

(** A notification whose [value] object is [fields]; a delivery status has
    ["statuses"] there and no ["messages"]. *)
Definition notification (fields : list (string * json)) : json :=
  JObj [("entry", JArr [JObj [("changes", JArr [JObj [("value", JObj fields)]])]])].

(** The object of a text message and the object of a contact. *)
Definition text_message_object (from id timestamp body : string) : json :=
  JObj [("from", JStr from); ("id", JStr id); ("timestamp", JStr timestamp);
        ("type", JStr "text"); ("text", JObj [("body", JStr body)])].

Definition contact_object (display_name : string) : json :=
  JObj [("profile", JObj [("name", JStr display_name)])].

(** Whether every field the handler hands on is a JSON string, for a body
    that parses to a text message (as every text message of the Cloud API
    does); other bodies never reach these fields. *)
Definition is_str (v : json) : bool :=
  match v with JStr _ => true | _ => false end.

Definition text_fields_are_strings (data : json) : bool :=
  match parse_whatsapp_message data with
  | Ok (Some md) =>
      if eq_str (p_type md) "text"
      then is_str (p_message_id md) && is_str (p_from md)
           && is_str (p_name md) && is_str (p_text md)
      else true
  | _ => true
  end.

(** Whether the start template, when there is one, renders for this sender
    and day. *)
Definition renders (format : string -> list (string * string) -> outcome string)
    (start_template : option string) (today sender_name : string) : bool :=
  match start_template with
  | Some template =>
      if PyStr.truthy start_template then
        match format template [("user", sender_name); ("today", today)] with
        | Ok _ => true
        | Raise _ => false
        end
      else true
  | None => true
  end.

(** ** What a computation may do *)

(** [runs P R c]: whatever the world, [c] only adds events to the trace, all
    of them allowed by [P]; the transcript it leaves is related by [R] to the
    one it found; and the counter of HTTP calls does not go back.  This holds
    whether [c] returns or raises. *)
Definition runs (P : Event -> bool) (R : list Message -> list Message -> Prop)
    {A} (c : M A) : Prop :=
  forall w,
    exists evs,
      trace (snd (c w)) = trace w ++ evs
      /\ forallb P evs = true
      /\ R (messages (chat w)) (messages (chat (snd (c w))))
      /\ net_calls w <= net_calls (snd (c w)).

(** [returns Q c]: when [c] returns, what it returns satisfies [Q]. *)
Definition returns {A} (Q : A -> Prop) (c : M A) : Prop :=
  forall w a w', c w = (Ok a, w') -> Q a.

(** The old transcript is still there, in one piece and in order. *)
Definition kept_as_infix (a b : list Message) : Prop :=
  exists pre post, b = pre ++ a ++ post.

(** No message is lost and every message after the first stays where it
    is. *)
Definition kept_after_head (a b : list Message) : Prop :=
  List.length a <= List.length b /\ exists post, tl b = tl a ++ post.

(** The events of the Cloud handler: no save, no transcription, no fallback
    text, no overwrite of the first message. *)
Definition cloud_event (e : Event) : bool :=
  match e with
  | Save | Transcribe _ | SendFallback _ _ | SetSystem _ => false
  | _ => true
  end.

(** The events of the Twilio handler: no read receipt, no insertion in front
    of the transcript, no captioned image. *)
Definition twilio_event (e : Event) : bool :=
  match e with
  | MarkRead _ _ | InsertSystem _ | SendImage _ _ (Some _) _ => false
  | _ => true
  end.

(** An event that reaches nobody but [to]: a send to [to], or no send. *)
Definition sends_to (to : string) (e : Event) : bool :=
  match e with
  | SendText to' _ _ | SendFallback to' _ | SendImage to' _ _ _ => String.eqb to' to
  | _ => true
  end.

(** ** Keyword arguments *)

(** A [**kwargs] dict: the keys are distinct, the values are opaque here and
    written as JSON values. *)
Definition kwargs : Type := list (string * json).

Definition has_key (k : string) (kw : kwargs) : bool :=
  match assoc k kw with Some _ => true | None => false end.

(** [kw.pop(k)], the dict that is left. *)
Definition remove_key (k : string) (kw : kwargs) : kwargs :=
  filter (fun kv => negb (String.eqb k (fst kv))) kw.

(** [kw[k] = v] *)
Fixpoint set_key (k : string) (v : json) (kw : kwargs) : kwargs :=
  match kw with
  | [] => [(k, v)]
  | (k', v') :: rest =>
      if String.eqb k k' then (k, v) :: rest else (k', v') :: set_key k v rest
  end.

(** [d.update(other)] *)
Definition update (d other : kwargs) : kwargs :=
  fold_left (fun acc kv => set_key (fst kv) (snd kv) acc) other d.

(** ** More of Python's strings *)

Module PyStrMore.

(** [str.lower] on one character (code points below 256): the ASCII capitals
    and the Latin-1 capitals, the multiplication sign left out. *)
Definition lower_char (c : ascii) : ascii :=
  let n := nat_of_ascii c in
  if (((65 <=? n) && (n <=? 90))
      || ((192 <=? n) && (n <=? 222) && negb (n =? 215)))%nat
  then ascii_of_nat (n + 32) else c.

Fixpoint lower (s : string) : string :=
  match s with
  | String c rest => String (lower_char c) (lower rest)
  | EmptyString => EmptyString
  end.

(** One pass of [str.split()]: the word being read at the start of [s] and the
    words after it. *)
Fixpoint split_aux (s : string) : string * list string :=
  match s with
  | EmptyString => (EmptyString, [])
  | String c rest =>
      let (word, words) := split_aux rest in
      if PyStr.isspace c
      then (EmptyString,
            match word with EmptyString => words | _ => word :: words end)
      else (String c word, words)
  end.

(** [s.split()]: the maximal runs of characters that are not whitespace. *)
Definition split (s : string) : list string :=
  let (word, words) := split_aux s in
  match word with EmptyString => words | _ => word :: words end.

Definition newline : ascii := ascii_of_nat 10.

(** [re.sub(r" ->.*", "", s)]: from every [" ->"] to the end of its line.
    [skipping] tells that the scan is inside a match. *)
Fixpoint sub_arrow (skipping : bool) (s : string) : string :=
  match s with
  | EmptyString => EmptyString
  | String c rest =>
      if skipping then
        if Ascii.eqb c newline then String c (sub_arrow false rest)
        else sub_arrow true rest
      else if String.prefix " ->" s then sub_arrow true rest
      else String c (sub_arrow false rest)
  end.

(** [sep.join(parts)] *)
Fixpoint join_with (sep : string) (parts : list string) : string :=
  match parts with
  | [] => EmptyString
  | [p] => p
  | p :: rest => String.append p (String.append sep (join_with sep rest))
  end.

(** No character of [s] is whitespace. *)
Fixpoint no_space (s : string) : bool :=
  match s with
  | String c rest => negb (PyStr.isspace c) && no_space rest
  | EmptyString => true
  end.

End PyStrMore.

(** A string that does not start with whitespace. *)
Definition head_ok (s : string) : Prop :=
  match s with
  | EmptyString => True
  | String c _ => PyStr.isspace c = false
  end.

(** ** [chat/handlers/openai] *)

Module Services.

(** The exceptions of this part of the code. *)
Inductive error :=
| DuplicateArgument   (* TypeError: got multiple values for an argument *)
| NotAString          (* TypeError: [re.sub] on a content that is [None] *)
| FormatError         (* KeyError, IndexError or ValueError of [str.format] *)
| HTTPError           (* [requests]: the download failed *)
| APIError.           (* the completion or image service failed *)

Inductive result (A : Type) :=
| Return (a : A)
| Throw (e : error).
Arguments Return {A} a.
Arguments Throw {A} e.

Inductive Provider := OpenAI | Groq.

(** One call of [client.chat.completions.create]. *)
Record ApiCall := mkApiCall {
  provider : Provider;
  api_model : json;
  api_messages : list Message;
  api_kwargs : kwargs
}.

(** [prompt] in [text_completion] is a string or a list of messages. *)
Inductive Prompt :=
| PromptText (text : string)
| PromptMessages (msgs : list Message).

Definition default_model : json := JStr "gpt-4o-mini".
Definition llama_model : json := JStr "llama-3.3-70b-versatile".

Section Completions.

(** [os.environ.get("USE_GROQ")] *)
Variable USE_GROQ : option string.
(** The call of the service and the reading of its answer (completions.py
    88-96): [response.choices[0].message.content], which is [None] for a
    message without content, or the exception raised on the way (that of the
    client, or the [IndexError] of an answer without choices). *)
Variable create : ApiCall -> result (option string).
(** [str.format] with keyword arguments, or its exception. *)
Variable format : string -> list (string * string) -> result string.

Definition use_groq : bool :=
  String.eqb
    (PyStrMore.lower (match USE_GROQ with Some v => v | None => "false" end))
    "true".

Definition is_openai_default (model : json) : bool :=
  eq_str model "gpt-3.5-turbo" || eq_str model "gpt-4o-mini" || eq_str model "gpt-4".

(** completions.py 53-94: the request [chat_completion(messages, **given)]
    makes.  [given] holds the keyword arguments of the call: [model] binds the
    parameter of that name, the others are the [**kwargs] of the function. *)
Definition chat_completion_call (messages : list Message) (given : kwargs) : ApiCall :=
  let model := match assoc "model" given with Some m => m | None => default_model end in
  let kw := remove_key "model" given in
  let model' := match assoc "engine" kw with Some e => e | None => model end in
  let kw' := if has_key "engine" kw then remove_key "engine" kw else kw in
  if use_groq then
    mkApiCall Groq (if is_openai_default model' then llama_model else model') messages kw'
  else mkApiCall OpenAI model' messages kw'.

(** completions.py 53-96.  A keyword argument [messages] next to the
    positional one is refused when the call is made. *)
Definition chat_completion (messages : list Message) (given : kwargs)
  : result (option string) :=
  if has_key "messages" given then Throw DuplicateArgument
  else create (chat_completion_call messages given).

(** completions.py 20-51, called as [text_completion(prompt, **given)]:
    [chat] and [engine] in [given] bind the parameters of these names, the
    others are the [**kwargs] of the function, and a keyword argument [prompt]
    next to the positional one is refused.  The last line is the call
    [chat_completion(messages, model=engine, **kwargs)]. *)
Definition text_completion (prompt : Prompt) (given : kwargs) : result (option string) :=
  if has_key "prompt" given then Throw DuplicateArgument
  else
    let engine := match assoc "engine" given with Some e => e | None => default_model end in
    let kw := remove_key "engine" (remove_key "chat" given) in
    let engine' := match assoc "model" kw with Some m => m | None => engine end in
    let kw' := if has_key "model" kw then remove_key "model" kw else kw in
    let messages :=
      match prompt with
      | PromptMessages msgs => msgs
      | PromptText text => [mkMessage user text]
      end in
    chat_completion messages (("model", engine') :: kw').

Definition default_language_prompt : string :=
  "You are a language recognition program. You can only output a single word saying the language of a given text.".

Definition default_examples : list (string * string) :=
  [("Hello world", "english"); ("Bonjour le monde", "french");
   ("Hola mundo", "spanish"); ("Hallo Welt", "german")].

(** completions.py 195-209: the prompt sent to the service. *)
Definition language_prompt (text : string) (prompt : option string)
    (examples : option (list (string * string))) : result string :=
  match (match prompt with
         | None => Return default_language_prompt
         | Some p => format p [("text", text)]
         end) with
  | Throw e => Throw e
  | Return p0 =>
      let exs := match examples with None => default_examples | Some e => e end in
      let shown :=
        map (fun ex =>
               String.append dquote
                 (String.append (fst ex)
                    (String.append dquote (String.append " -> " (snd ex)))))
            exs in
      let p1 :=
        String.append p0
          (String.append
             (String.append " Some "
                (String.append dquote
                   (String.append "text"
                      (String.append dquote " -> reply example outputs are: "))))
             (PyStrMore.join_with ", " shown)) in
      Return
        (String.append p1
           (String.append (String PyStrMore.newline "---")
              (String PyStrMore.newline (String.append text " ->"))))
  end.

(** completions.py 221-224: the answer of the service made into a language
    name. *)
Definition detected_language (result_text : string) : string :=
  let detected_lang :=
    PyStrMore.lower (PyStr.strip (PyStrMore.sub_arrow false result_text)) in
  if (1 <? List.length (PyStrMore.split detected_lang))%nat
  then hd EmptyString (PyStrMore.split detected_lang)
  else detected_lang.

(** completions.py 170-224.  [kw] is the dict bound to its [**kwargs].  The
    two calls are [chat_completion(messages, model=engine, **kwargs)] and
    [text_completion(prompt, engine=engine, **kwargs)]; a [kw] that names
    [model] (or [engine]) again is refused when the call is made. *)
Definition language_detection (text engine : string) (prompt : option string)
    (examples : option (list (string * string))) (kw : kwargs) : result string :=
  match language_prompt text prompt examples with
  | Throw e => Throw e
  | Return p =>
      let answer :=
        if String.eqb engine "gpt-3.5-turbo" then
          if has_key "model" kw then Throw DuplicateArgument
          else chat_completion [mkMessage system p] (("model", JStr engine) :: kw)
        else
          let kw' := set_key "stop" (JStr (String PyStrMore.newline EmptyString)) kw in
          if has_key "engine" kw' then Throw DuplicateArgument
          else text_completion (PromptText p) (("engine", JStr engine) :: kw') in
      match answer with
      | Return (Some result_text) => Return (detected_language result_text)
      | Return None => Throw NotAString
      | Throw e => Throw e
      end
  end.

End Completions.

Section Images.

(** [client.images.generate(prompt=..., model="dall-e-3", **params)]: the
    [url] of every item of [response.data]. *)
Variable generate : string -> kwargs -> result (list (option string)).
(** [requests.get(url).content] *)
Variable download : string -> result string.

(** images.py 6-32; [kw] is its [**kwargs]. *)
Definition text_to_image (prompt : string) (as_url : bool) (kw : kwargs)
  : result (option string) :=
  let creation_params := update [("n", JNum 1); ("size", JStr "1024x1024")] kw in
  if has_key "prompt" creation_params || has_key "model" creation_params
  then Throw DuplicateArgument
  else
    match generate prompt creation_params with
    | Throw e => Throw e
    | Return [] => Return None
    | Return (image_url :: _) =>
        match image_url with
        | None => Return None
        | Some url =>
            if PyStr.truthy image_url then
              if as_url then Return (Some url)
              else match download url with
                   | Return content => Return (Some content)
                   | Throw e => Throw e
                   end
            else Return None
        end
    end.

End Images.

End Services.

(** * Properties *)

(** ** Strings *)

Lemma len_append (a b : string) :
  PyStr.len (String.append a b) = PyStr.len a + PyStr.len b.
Proof.
  induction a as [|c a IH]; simpl; [reflexivity|].
  unfold PyStr.len in *; simpl; now rewrite IH.
Qed.

Lemma take_drop_id (n : nat) (s : string) :
  String.append (PyStr.take n s) (PyStr.drop n s) = s.
Proof.
  revert s; induction n as [|n IH]; intros [|c s]; simpl; try reflexivity.
  now rewrite IH.
Qed.

Lemma take_all (n : nat) (s : string) :
  PyStr.len s <= n -> PyStr.take n s = s.
Proof.
  revert s; induction n as [|n IH]; intros [|c s]; unfold PyStr.len; simpl;
    intros H; try reflexivity; try lia.
  rewrite IH; [reflexivity | unfold PyStr.len; lia].
Qed.

Lemma take_add (a b : nat) (s : string) :
  PyStr.take (a + b) s = String.append (PyStr.take a s) (PyStr.take b (PyStr.drop a s)).
Proof.
  revert s; induction a as [|a IH]; intros s; simpl.
  - destruct s; reflexivity.
  - destruct s as [|c s]; simpl.
    + destruct b; reflexivity.
    + now rewrite IH.
Qed.

Lemma take_append_len (a b : string) :
  PyStr.take (PyStr.len a) (String.append a b) = a.
Proof.
  induction a as [|c a IH]; simpl.
  - destruct b; reflexivity.
  - unfold PyStr.len in *; simpl; now rewrite IH.
Qed.

Lemma drop_append_len (a b : string) :
  PyStr.drop (PyStr.len a) (String.append a b) = b.
Proof.
  induction a as [|c a IH]; simpl.
  - destruct b; reflexivity.
  - exact IH.
Qed.

Lemma endswith_append (a suffix : string) :
  PyStr.endswith (String.append a suffix) suffix = true.
Proof.
  unfold PyStr.endswith.
  rewrite len_append.
  replace (PyStr.len a + PyStr.len suffix - PyStr.len suffix) with (PyStr.len a) by lia.
  rewrite drop_append_len, String.eqb_refl, andb_true_r.
  apply Nat.leb_le; lia.
Qed.

Lemma drop_suffix_append (a : string) :
  drop_suffix (String.append a ellipsis) = a.
Proof.
  unfold drop_suffix, PyStr.slice.
  rewrite len_append.
  replace (PyStr.len a + PyStr.len ellipsis - PyStr.len ellipsis - 0)
    with (PyStr.len a) by lia.
  simpl PyStr.drop.
  apply take_append_len.
Qed.

Lemma join_app (xs ys : list string) :
  PyStr.join (xs ++ ys) = String.append (PyStr.join xs) (PyStr.join ys).
Proof.
  induction xs as [|x xs IH]; simpl; [reflexivity|].
  unfold PyStr.join in *; simpl.
  rewrite IH.
  clear IH; induction x as [|c x IHx]; simpl; [reflexivity | now rewrite IHx].
Qed.

Lemma append_empty_r (s : string) : String.append s EmptyString = s.
Proof. induction s as [|c s IH]; simpl; [reflexivity | now rewrite IH]. Qed.

(** ** The chunker *)

(** The raw slices of the splitting loop, glued together, are a prefix of the
    reply. *)
Lemma join_slices (s : string) (m : nat) :
  PyStr.join (map (fun i => PyStr.slice s i (i + 1500)) (map (fun k => 0 + k * 1500) (seq 0 m)))
  = PyStr.take (m * 1500) s.
Proof.
  induction m as [|m IH].
  - destruct s; reflexivity.
  - rewrite seq_S, !map_app, join_app, IH.
    cbn [map PyStr.join fold_right Nat.add].
    rewrite append_empty_r.
    unfold PyStr.slice.
    replace (m * 1500 + 1500 - m * 1500) with 1500 by lia.
    replace (S m * 1500) with (m * 1500 + 1500) by lia.
    now rewrite take_add.
Qed.

Lemma py_range_length (stop : nat) :
  List.length (py_range 0 stop 1500) = ceil_div stop 1500.
Proof.
  unfold py_range, ceil_div.
  now rewrite length_map, length_seq, Nat.sub_0_r.
Qed.

Lemma ceil_div_bounds (n : nat) :
  n <= ceil_div n 1500 * 1500 /\ (0 < n -> (ceil_div n 1500 - 1) * 1500 < n).
Proof.
  unfold ceil_div.
  change (1500 - 1) with 1499.
  pose proof (Nat.div_mod_eq (n + 1499) 1500) as E.
  pose proof (Nat.mod_upper_bound (n + 1499) 1500 ltac:(lia)) as B.
  split; [lia|].
  intros Hn. 
  assert (1 <= (n + 1499) / 1500) by (apply Nat.div_le_lower_bound; lia).
  lia.
Qed.

Lemma ceil_div_zero_iff (n : nat) : ceil_div n 1500 = 0 <-> n = 0.
Proof.
  pose proof (ceil_div_bounds n) as [H1 H2].
  split; intros H.
  - rewrite H in H1; lia.
  - subst n; reflexivity.
Qed.

Lemma strip_suffixes_cons (c : string) (rest : list string) :
  rest <> [] -> strip_suffixes (c :: rest) = drop_suffix c :: strip_suffixes rest.
Proof. destruct rest; [congruence | reflexivity]. Qed.

(** In a split reply the suffix sits on every chunk but the last, so taking
    it off gives back the raw slices. *)
Lemma strip_suffixes_chunks (s : string) (m a : nat) :
  a + m = ceil_div (PyStr.len s) 1500 ->
  strip_suffixes (map (chunk_at s) (map (fun k => 0 + k * 1500) (seq a m)))
  = map (fun i => PyStr.slice s i (i + 1500)) (map (fun k => 0 + k * 1500) (seq a m)).
Proof.
  pose proof (ceil_div_bounds (PyStr.len s)) as [Hup Hlow].
  revert a; induction m as [|m IH]; intros a Ha; [reflexivity|].
  destruct m as [|m].
  - cbn [seq map strip_suffixes Nat.add].
    unfold chunk_at.
    destruct (Nat.ltb_spec (a * 1500 + 1500) (PyStr.len s)) as [Hlt|Hge];
      [|reflexivity].
    exfalso. rewrite <- Ha in Hup. lia.
  - specialize (IH (S a) ltac:(lia)).
    change (seq a (S (S m))) with (a :: seq (S a) (S m)).
    cbn [map].
    rewrite strip_suffixes_cons, IH.
    + f_equal.
      unfold chunk_at. cbn [Nat.add].
      destruct (Nat.ltb_spec (a * 1500 + 1500) (PyStr.len s)) as [Hlt|Hge].
      * apply drop_suffix_append.
      * exfalso.
        assert (0 < PyStr.len s) as Hpos.
        { destruct (PyStr.len s) eqn:E; [|lia].
          change (ceil_div 0 1500) with 0 in Ha. lia. }
        specialize (Hlow Hpos). rewrite <- Ha in Hlow. lia.
    + intros H. apply (f_equal (@List.length string)) in H.
      rewrite !length_map, length_seq in H. discriminate.
Qed.

Lemma reply_chunks_join (reply : string) :
  PyStr.join (strip_suffixes (reply_chunks reply)) = reply.
Proof.
  unfold reply_chunks.
  destruct (1600 <? PyStr.len reply)%nat.
  - unfold py_range.
    rewrite Nat.sub_0_r.
    change ((PyStr.len reply + (1500 - 1)) / 1500) with (ceil_div (PyStr.len reply) 1500).
    rewrite strip_suffixes_chunks by reflexivity.
    rewrite join_slices.
    apply take_all, ceil_div_bounds.
  - cbn. apply append_empty_r.
Qed.

Lemma reply_chunks_length (reply : string) :
  List.length (reply_chunks reply)
  = if (1600 <? PyStr.len reply)%nat then ceil_div (PyStr.len reply) 1500 else 1.
Proof.
  unfold reply_chunks.
  destruct (1600 <? PyStr.len reply)%nat; [|reflexivity].
  now rewrite length_map, py_range_length.
Qed.

Lemma reply_chunks_suffix (reply : string) (k : nat) (c : string) :
  nth_error (reply_chunks reply) k = Some c ->
  S k < List.length (reply_chunks reply) ->
  PyStr.endswith c ellipsis = true.
Proof.
  rewrite reply_chunks_length.
  unfold reply_chunks.
  destruct (1600 <? PyStr.len reply)%nat; [|intros _ H; lia].
  unfold py_range. rewrite Nat.sub_0_r.
  change ((PyStr.len reply + (1500 - 1)) / 1500) with (ceil_div (PyStr.len reply) 1500).
  rewrite !nth_error_map, nth_error_seq.
  intros Hnth Hk.
  destruct (Nat.ltb_spec k (ceil_div (PyStr.len reply) 1500)) as [_|Hge]; [|lia].
  cbn in Hnth. injection Hnth as <-.
  pose proof (ceil_div_bounds (PyStr.len reply)) as [_ Hlow].
  assert (0 < PyStr.len reply) as Hpos.
  { destruct (PyStr.len reply); [change (ceil_div 0 1500) with 0 in Hk|]; lia. }
  specialize (Hlow Hpos).
  unfold chunk_at.
  destruct (Nat.ltb_spec (k * 1500 + 1500) (PyStr.len reply)) as [_|Hge].
  - apply endswith_append.
  - exfalso. nia.
Qed.

(** ** Running the relay *)

Lemma world_eta (w : World) : mkWorld (chat w) (trace w) (net_calls w) = w.
Proof. destruct w; reflexivity. Qed.

Lemma for_each_map {A B} (f : A -> B) (xs : list A) (body : B -> M unit) (w : World) :
  for_each (map f xs) body w = for_each xs (fun x => body (f x)) w.
Proof.
  revert w; induction xs as [|x xs IH]; intros w; [reflexivity|].
  cbn [map for_each]. unfold bind.
  destruct (body (f x) w) as [[[]|e] w']; [apply IH | reflexivity].
Qed.

Section RelayFacts.

Variable net_ok : nat -> bool.

Lemma twilio_send_all (to apology : string) (texts : list string) (w : World) :
  for_each texts (fun t => twilio_send_message net_ok t to (Some apology)) w
  = (Ok tt,
     mkWorld (chat w)
       (trace w ++ twilio_events net_ok to apology (net_calls w) texts)
       (net_calls w + List.length texts)).
Proof.
  revert w; induction texts as [|t texts IH]; intros w.
  - cbn. now rewrite app_nil_r, Nat.add_0_r, world_eta.
  - cbn [for_each twilio_events List.length].
    unfold bind at 1. unfold twilio_send_message, bind, next_call, emit, ret.
    cbn [chat trace net_calls].
    destruct (net_ok (net_calls w)); cbn [chat trace net_calls];
      rewrite IH; cbn [chat trace net_calls];
      rewrite <- ?app_assoc; cbn [app]; do 2 f_equal; lia.
Qed.

Lemma twilio_send_one (to apology text : string) (w : World) :
  twilio_send_message net_ok text to (Some apology) w
  = (Ok tt,
     mkWorld (chat w)
       (trace w ++ twilio_events net_ok to apology (net_calls w) [text])
       (net_calls w + 1)).
Proof.
  unfold twilio_send_message, bind, next_call, emit, ret.
  cbn [chat trace net_calls twilio_events].
  destruct (net_ok (net_calls w)); cbn [chat trace net_calls app];
    rewrite <- ?app_assoc; cbn [app]; do 2 f_equal; lia.
Qed.

Lemma twilio_relay_run (reply : string) (w : World) :
  twilio_relay net_ok reply w
  = (Ok tt,
     mkWorld (chat w)
       (trace w ++ twilio_events net_ok (phone_number (sender (chat w))) didnt_understand
                     (net_calls w) (reply_chunks reply))
       (net_calls w + List.length (reply_chunks reply))).
Proof.
  unfold twilio_relay, reply_chunks, bind, get_chat.
  destruct (1600 <? PyStr.len reply)%nat.
  - rewrite <- twilio_send_all.
    symmetry. apply for_each_map.
  - apply twilio_send_one.
Qed.

Lemma cloud_send_all (to : string) (texts : list string) (w : World) :
  for_each texts (cloud_send_message net_ok to) w
  = ((if all_accepted net_ok (net_calls w) (List.length texts)
      then Ok tt else Raise RequestException),
     mkWorld (chat w)
       (trace w ++ cloud_events net_ok to (net_calls w) texts)
       (net_calls w + List.length (cloud_events net_ok to (net_calls w) texts))).
Proof.
  revert w; induction texts as [|t texts IH]; intros w.
  - cbn. now rewrite app_nil_r, Nat.add_0_r, world_eta.
  - cbn [for_each cloud_events List.length all_accepted].
    unfold bind at 1. unfold cloud_send_message, bind, next_call, emit, ret, raise.
    cbn [chat trace net_calls].
    destruct (net_ok (net_calls w)); cbn [chat trace net_calls andb List.length].
    + rewrite IH; cbn [chat trace net_calls].
      rewrite <- app_assoc; cbn [app]. do 2 f_equal. lia.
    + do 2 f_equal. lia.
Qed.

Lemma cloud_send_one (to text : string) (w : World) :
  cloud_send_message net_ok to text w
  = ((if net_ok (net_calls w) then Ok tt else Raise RequestException),
     mkWorld (chat w) (trace w ++ [SendText to text (net_ok (net_calls w))])
       (S (net_calls w))).
Proof.
  unfold cloud_send_message, bind, next_call, emit, ret, raise.
  cbn [chat trace net_calls].
  destruct (net_ok (net_calls w)); reflexivity.
Qed.

Lemma cloud_relay_run (reply to : string) (w : World) :
  cloud_relay net_ok reply to w
  = ((if all_accepted net_ok (net_calls w) (List.length (reply_chunks reply))
      then Ok tt else Raise RequestException),
     mkWorld (chat w)
       (trace w ++ cloud_events net_ok to (net_calls w) (reply_chunks reply))
       (net_calls w
        + List.length (cloud_events net_ok to (net_calls w) (reply_chunks reply)))).
Proof.
  unfold cloud_relay, reply_chunks.
  destruct (1600 <? PyStr.len reply)%nat.
  - rewrite <- cloud_send_all.
    symmetry. apply (for_each_map (chunk_at reply)).
  - rewrite cloud_send_one. cbn [List.length all_accepted cloud_events].
    rewrite andb_true_r.
    destruct (net_ok (net_calls w)); cbn [List.length]; do 2 f_equal; lia.
Qed.

Lemma sent_texts_app (xs ys : list Event) :
  sent_texts (xs ++ ys) = sent_texts xs ++ sent_texts ys.
Proof.
  induction xs as [|e xs IH]; [reflexivity|].
  destruct e; cbn; now rewrite ?IH.
Qed.

Lemma sent_texts_twilio (to apology : string) (n : nat) (texts : list string) :
  sent_texts (twilio_events net_ok to apology n texts) = texts.
Proof.
  revert n; induction texts as [|t texts IH]; intros n; [reflexivity|].
  cbn [twilio_events sent_texts].
  rewrite sent_texts_app, IH.
  destruct (net_ok n); reflexivity.
Qed.

Lemma sent_texts_cloud (to : string) (n : nat) (texts : list string) :
  sent_texts (cloud_events net_ok to n texts)
  = firstn (List.length (cloud_events net_ok to n texts)) texts.
Proof.
  revert n; induction texts as [|t texts IH]; intros n; [reflexivity|].
  cbn [cloud_events sent_texts List.length firstn].
  destruct (net_ok n); [now rewrite IH | reflexivity].
Qed.

Lemma cloud_events_accepted (to : string) (n : nat) (texts : list string) :
  all_accepted net_ok n (List.length texts) = true ->
  cloud_events net_ok to n texts = map (fun t => SendText to t true) texts.
Proof.
  revert n; induction texts as [|t texts IH]; intros n; [reflexivity|].
  cbn [all_accepted List.length cloud_events map].
  intros [Hn Hrest]%andb_prop.
  now rewrite Hn, IH.
Qed.

End RelayFacts.

(** C1 (as amended): the relay hands [reply_chunks reply] to the channel, in
    order, on both transports.  A reply longer than 1600 characters gives
    [ceil(L/1500)] chunks, a shorter one a single chunk; every chunk but the
    last ends with the suffix ["..."]; and the chunks with the suffixes taken
    off, glued together, are the reply.  (On the Cloud transport the sends
    stop at the first refused one, so the texts sent are a prefix of the
    chunks.) *)
Theorem relay_chunks_spec (net_ok : nat -> bool) (reply : string) (w : World) :
  let cs := reply_chunks reply in
  (exists evs,
      trace (snd (twilio_relay net_ok reply w)) = trace w ++ evs
      /\ sent_texts evs = cs)
  /\ (forall to, exists evs,
         trace (snd (cloud_relay net_ok reply to w)) = trace w ++ evs
         /\ sent_texts evs = firstn (List.length evs) cs
         /\ (all_accepted net_ok (net_calls w) (List.length cs) = true ->
             sent_texts evs = cs))
  /\ List.length cs
     = (if (1600 <? PyStr.len reply)%nat then ceil_div (PyStr.len reply) 1500 else 1)
  /\ (forall k c, nth_error cs k = Some c -> S k < List.length cs ->
                  PyStr.endswith c ellipsis = true)
  /\ PyStr.join (strip_suffixes cs) = reply.
Proof.
  cbv zeta. repeat split.
  - rewrite twilio_relay_run. cbn [snd trace].
    eexists; split; [reflexivity | apply sent_texts_twilio].
  - intros to. rewrite cloud_relay_run. cbn [snd trace].
    eexists; split; [reflexivity|]. split.
    + apply sent_texts_cloud.
    + intros Hall. rewrite (cloud_events_accepted _ _ _ _ Hall).
      clear; induction (reply_chunks reply) as [|c cs IH]; cbn; [reflexivity | now rewrite IH].
  - apply reply_chunks_length.
  - apply reply_chunks_suffix.
  - apply reply_chunks_join.
Qed.

(** C1 (as stated) fails between the step and the limit: a reply of 1501
    characters goes out as one message, and [ceil(1501/1500)] is 2. *)
Lemma relay_chunks_counterexample :
  let reply := PyStr.replicate 1501 "a"%char in
  sent_texts (trace (snd (twilio_relay (fun _ => true) reply (quiet_world demo_chat))))
    = [reply]
  /\ ceil_div (PyStr.len reply) 1500 = 2.
Proof. vm_compute. split; reflexivity. Qed.

(** ** Webhook verification *)

Lemma opt_eq_str_spec (o : option string) (s : string) :
  opt_eq_str o s = true <-> o = Some s.
Proof.
  destruct o as [s'|]; cbn.
  - rewrite String.eqb_eq. split; congruence.
  - split; discriminate.
Qed.

(** C10: the verification endpoint answers the challenge with status 200
    exactly when the mode is ["subscribe"] and the token is the configured
    one (["your-verify-token"] when none is configured), and answers
    ["Forbidden"] with status 403 in every other case. *)
Theorem verify_webhook_spec (env_token mode token challenge : option string) :
  let verify_token :=
    match env_token with Some t => t | None => "your-verify-token" end in
  let granted := mode = Some "subscribe" /\ token = Some verify_token in
  (verify_webhook env_token mode token challenge = (Plain challenge, 200) <-> granted)
  /\ (verify_webhook env_token mode token challenge = (Plain (Some "Forbidden"), 403)
      <-> ~ granted).
Proof.
  cbv zeta. unfold verify_webhook.
  set (vt := match env_token with Some t => t | None => "your-verify-token" end).
  destruct (opt_eq_str mode "subscribe") eqn:Em;
    destruct (opt_eq_str token vt) eqn:Et; cbn [andb].
  - apply opt_eq_str_spec in Em, Et.
    split; split; intros H; try tauto; try discriminate. 
  - assert (token <> Some vt) by (intros H%opt_eq_str_spec; congruence).
    split; split; intros H'; try tauto; try discriminate.
  - assert (mode <> Some "subscribe") by (intros H%opt_eq_str_spec; congruence).
    split; split; intros H'; try tauto; try discriminate.
  - assert (mode <> Some "subscribe") by (intros H%opt_eq_str_spec; congruence).
    split; split; intros H'; try tauto; try discriminate.
Qed.

(** ** Computations that leave the bootstrap alone *)

Section Steps.

Variable R : list Message -> list Message -> Prop.
Hypothesis R_refl : forall a, R a a.
Hypothesis R_trans : forall a b c, R a b -> R b c -> R a c.

Lemma steps_ret {A} (a : A) : steps R (ret a).
Proof. intros w. exists []. cbn. rewrite app_nil_r. auto. Qed.

Lemma steps_raise {A} (e : exn) : steps R (@raise A e).
Proof. intros w. exists []. cbn. rewrite app_nil_r. auto. Qed.

Lemma steps_lift {A} (o : outcome A) : steps R (lift o).
Proof. intros w. exists []. cbn. rewrite app_nil_r. auto. Qed.

Lemma steps_get_chat : steps R get_chat.
Proof. intros w. exists []. cbn. rewrite app_nil_r. auto. Qed.

Lemma steps_next_call : steps R next_call.
Proof. intros w. exists []. cbn. rewrite app_nil_r. auto. Qed.

Lemma steps_emit (e : Event) : quiet_ev e = true -> steps R (emit e).
Proof. intros He w. exists [e]. cbn. rewrite He. auto. Qed.


Lemma steps_bind {A B} (c : M A) (k : A -> M B) :
  steps R c -> (forall a, steps R (k a)) -> steps R (bind c k).
Proof.
  intros Hc Hk w. unfold bind.
  destruct (Hc w) as (evs & Ht & Hq & Hr).
  destruct (c w) as [[a|e] w1]; cbn [snd] in *.
  - destruct (Hk a w1) as (evs' & Ht' & Hq' & Hr').
    exists (evs ++ evs'). rewrite Ht', Ht, app_assoc, forallb_app, Hq, Hq'.
    eauto.
  - exists evs. auto.
Qed.

Lemma steps_try {A} (c : M A) (h : exn -> M A) :
  steps R c -> (forall e, steps R (h e)) -> steps R (try_except c h).
Proof.
  intros Hc Hh w. unfold try_except.
  destruct (Hc w) as (evs & Ht & Hq & Hr).
  destruct (c w) as [[a|e] w1]; cbn [snd] in *.
  - exists evs. auto.
  - destruct (Hh e w1) as (evs' & Ht' & Hq' & Hr').
    exists (evs ++ evs'). rewrite Ht', Ht, app_assoc, forallb_app, Hq, Hq'.
    eauto.
Qed.

Lemma steps_when (b : bool) (c : M unit) : steps R c -> steps R (when b c).
Proof. destruct b; [trivial | intros _; apply steps_ret]. Qed.

Lemma steps_for_each {A} (xs : list A) (body : A -> M unit) :
  (forall x, steps R (body x)) -> steps R (for_each xs body).
Proof.
  intros Hb. induction xs as [|x xs IH]; cbn [for_each].
  - apply steps_ret.
  - apply steps_bind; auto.
Qed.

End Steps.

Create HintDb steps discriminated.
#[local] Hint Resolve steps_ret steps_raise steps_lift steps_get_chat steps_next_call
  steps_when steps_for_each : steps.

(** One step of proof search through a computation built from [bind]. *)
Ltac step_through :=
  repeat first
    [ assumption
    | progress intros
    | apply steps_bind
    | apply steps_try
    | apply steps_when
    | apply steps_for_each
    | apply steps_ret
    | apply steps_raise
    | apply steps_lift
    | apply steps_get_chat
    | apply steps_next_call
    | apply steps_emit; first [assumption | reflexivity]
    | match goal with
      | |- steps _ (if ?b then _ else _) => destruct b
      | |- steps _ (match ?o with Some _ => _ | None => _ end) => destruct o
      | |- steps _ (match ?o with Ok _ => _ | Raise _ => _ end) => destruct o
      end
    | solve [auto with steps] ].

Section Quiet.

Variable net_ok : nat -> bool.
Variable chatgpt_completion : list Message -> outcome string.
Variable whisper_transcription : string -> outcome string.
Variable text_to_image : string -> outcome (option string).
Variable language_detection : string -> outcome string.
Variable verify_image_generation : string -> string * option string.
Variable check_conversation_end : string -> Chat -> bool.
Variable format : string -> list (string * string) -> outcome string.
Variable start_template : option string.

Variable R : list Message -> list Message -> Prop.
Hypothesis R_refl : forall a, R a a.
Hypothesis R_trans : forall a b c, R a b -> R b c -> R a c.



Lemma steps_cloud_send (to text : string) :
  steps R (cloud_send_message net_ok to text).
Proof. unfold cloud_send_message. step_through. Qed.

Lemma steps_cloud_send_image (to url : string) (caption : option string) :
  steps R (cloud_send_image net_ok to url caption).
Proof. unfold cloud_send_image. step_through. Qed.




Lemma steps_image_generation (p : string)
    (send_image send_text : string -> M unit) :
  (forall url, steps R (send_image url)) ->
  (forall t, steps R (send_text t)) ->
  steps R (check_and_send_image_generation text_to_image p send_image send_text).
Proof.
  intros Hi Ht. unfold check_and_send_image_generation.
  apply steps_bind; try assumption; [step_through|].
  intros _. destruct (text_to_image p) as [[url|]|e]; step_through; auto.
Qed.


Lemma steps_cloud_relay (reply to : string) : steps R (cloud_relay net_ok reply to).
Proof. unfold cloud_relay. step_through; apply steps_cloud_send. Qed.

Lemma steps_cloud_image_step (img_prompt : option string) (to : string) :
  steps R (cloud_image_step net_ok text_to_image img_prompt to).
Proof.
  unfold cloud_image_step.
  destruct img_prompt as [p|]; [|step_through].
  destruct (PyStr.truthy (Some p)); [|step_through].
  apply steps_try; try assumption.
  - apply steps_bind; try assumption.
    + apply steps_image_generation; intros; [apply steps_cloud_send_image | apply steps_cloud_send].
    + intros [url|]; [|step_through].
      destruct (PyStr.truthy (Some url)); [apply steps_cloud_send_image | step_through].
  - intros _. apply steps_cloud_send.
Qed.


End Quiet.

(** ** The language bootstrap *)

Lemma grown_refl (a : list Message) : grown a a.
Proof. unfold grown; lia. Qed.

Lemma grown_trans (a b c : list Message) : grown a b -> grown b c -> grown a c.
Proof. unfold grown; lia. Qed.

Lemma same_length_refl (a : list Message) : same_length a a.
Proof. reflexivity. Qed.

Lemma same_length_trans (a b c : list Message) :
  same_length a b -> same_length b c -> same_length a c.
Proof. unfold same_length; congruence. Qed.

Lemma eq_trans_messages (a b c : list Message) : a = b -> b = c -> a = c.
Proof. congruence. Qed.

#[local] Hint Resolve grown_refl grown_trans same_length_refl same_length_trans
  eq_trans_messages : steps.

(** Side conditions on the relation between transcripts. *)
Ltac side :=
  solve [ exact grown_refl | exact grown_trans
        | exact same_length_refl | exact same_length_trans
        | exact (@eq_refl (list Message)) | exact eq_trans_messages ].

Lemma steps_add_message (text : string) (r : Role) :
  r <> user -> steps grown (add_message text r).
Proof.
  intros Hr w. exists [Append (make_message text r)].
  cbn. unfold grown. rewrite length_app. cbn.
  destruct r; try congruence; repeat split; lia.
Qed.


Section Bootstrap.

Variable net_ok : nat -> bool.
Variable chatgpt_completion : list Message -> outcome string.
Variable whisper_transcription : string -> outcome string.
Variable text_to_image : string -> outcome (option string).
Variable language_detection : string -> outcome string.
Variable verify_image_generation : string -> string * option string.
Variable check_conversation_end : string -> Chat -> bool.
Variable format : string -> list (string * string) -> outcome string.
Variable start_template : option string.



Lemma steps_cloud_reply_steps (reply : string) (img_prompt : option string) (to : string) :
  steps grown (cloud_reply_steps net_ok text_to_image reply img_prompt to).
Proof.
  unfold cloud_reply_steps.
  apply steps_bind; try side; [apply steps_cloud_relay; side|].
  intros _. apply steps_bind; try side; [apply steps_add_message; discriminate|].
  intros _. apply steps_bind; try side; [apply steps_cloud_image_step; side|].
  intros _. apply steps_ret; side.
Qed.

Lemma count_app (p : Event -> bool) (xs ys : list Event) :
  count p (xs ++ ys) = count p xs + count p ys.
Proof. unfold count. now rewrite filter_app, length_app. Qed.


























(** A text message of the Cloud API runs the read receipt, the resolve step
    and the active turn. *)
Lemma cloud_text_webhook_body
    (today from display_name id timestamp body : string) (w : World) :
  process_webhook_body net_ok chatgpt_completion text_to_image language_detection
    verify_image_generation format start_template today
    (text_webhook from display_name id timestamp body) w
  = (cloud_intake net_ok format start_template today id display_name ;;
     cloud_active_turn net_ok chatgpt_completion text_to_image language_detection
       verify_image_generation body from) w.
Proof.
  unfold process_webhook_body.
  unfold bind at 1. unfold lift at 1.
  change (parse_whatsapp_message (text_webhook from display_name id timestamp body))
    with (Ok (Some (mkParsed (JStr from) (JStr display_name) (JStr id) (JStr timestamp)
                      (JStr "text") (JStr body) JNull JNull))).
  cbn [p_type eq_str negb]. rewrite String.eqb_refl. cbn [negb].
  unfold cloud_text_turn, cloud_intake.
  cbn [p_message_id p_from p_name p_text as_str].
  unfold bind, lift.
  destruct (cloud_mark_as_read net_ok id w) as [[[]|e] w0]; [|reflexivity].
  destruct (cloud_resolve_system _ _ _ _ w0) as [[[]|e] w1]; reflexivity.
Qed.

(** The answer to a text message whose read receipt and resolve step went
    through: the answer of the active turn, an exception being answered with
    the error status. *)
Lemma cloud_text_webhook_answer
    (today from display_name id timestamp body : string) (w w1 : World) :
  cloud_intake net_ok format start_template today id display_name w = (Ok tt, w1) ->
  process_webhook net_ok chatgpt_completion text_to_image language_detection
    verify_image_generation format start_template today
    (text_webhook from display_name id timestamp body) w
  = match cloud_active_turn net_ok chatgpt_completion text_to_image
            language_detection verify_image_generation body from w1 with
    | (Ok resp, w') => (Ok resp, w')
    | (Raise _, w') => (Ok error_response, w')
    end.
Proof.
  intros Hin. unfold process_webhook, try_except.
  rewrite cloud_text_webhook_body. unfold bind at 1. rewrite Hin.
  destruct (cloud_active_turn _ _ _ _ _ _ _ w1) as [[resp|e] w']; reflexivity.
Qed.



End Bootstrap.




(** ** The end of a turn, step by step *)

(** Unfolds the monad and the small operations built on it. *)
Ltac run_monad :=
  unfold add_message, save, when, lift;
  unfold bind, ret, raise, try_except, get_chat, modify_chat, emit, next_call;
  cbn [fst snd chat trace net_calls messages sender set_messages set_language
       set_start_system_message start_system_message goodbye_message language].

Section ReplySteps.

Variable net_ok : nat -> bool.
Variable text_to_image : string -> outcome (option string).

Lemma honored_some (img_prompt : option string) (p : string) :
  honored img_prompt = Some p -> img_prompt = Some p /\ PyStr.truthy (Some p) = true.
Proof.
  unfold honored. destruct (PyStr.truthy img_prompt) eqn:E; [|discriminate].
  intros ->. auto.
Qed.

Lemma honored_none (img_prompt : option string) :
  honored img_prompt = None ->
  img_prompt = None \/ exists p, img_prompt = Some p /\ PyStr.truthy (Some p) = false.
Proof.
  unfold honored. destruct img_prompt as [p|]; [|auto].
  destruct (PyStr.truthy (Some p)) eqn:E; [discriminate|]. eauto.
Qed.

Lemma twilio_image_step_run (img_prompt : option string) (w : World) :
  exists w' sends,
    twilio_image_step net_ok text_to_image img_prompt w = (Ok tt, w')
    /\ messages (chat w') = messages (chat w) ++ audit_of img_prompt
    /\ trace w'
       = trace w ++ match honored img_prompt with
                    | Some p => Append (make_message (img_audit p) system)
                                  :: GenerateImage p :: sends
                    | None => []
                    end
    /\ forallb is_send sends = true.
Proof.
  unfold twilio_image_step, audit_of.
  destruct (honored img_prompt) as [p|] eqn:H.
  - apply honored_some in H as [-> Ht]. rewrite Ht.
    unfold check_and_send_image_generation, twilio_send_image, twilio_send_message.
    run_monad.
    destruct (text_to_image p) as [[url|]|e]; run_monad;
      try destruct (net_ok (net_calls w)); run_monad;
      eexists; eexists; (split; [reflexivity|]); cbn [chat trace messages];
      rewrite <- ?app_assoc; cbn [app];
      (split; [reflexivity|]); (split; [reflexivity|]); reflexivity.
  - exists w, []. rewrite !app_nil_r.
    apply honored_none in H as [->|(p & -> & Ht)]; [|rewrite Ht]; auto.
Qed.

(** The Twilio turn from the relay on: every chunk is handed to the channel,
    then the assistant message is appended, then the directive (if any) is
    recorded and fulfilled, then the conversation is saved. *)
Lemma twilio_reply_steps_run (reply : string) (img_prompt : option string) (w : World) :
  exists w' sends,
    twilio_reply_steps net_ok text_to_image reply img_prompt w = (Ok ok_response, w')
    /\ messages (chat w')
       = messages (chat w) ++ make_message reply assistant :: audit_of img_prompt
    /\ trace w'
       = trace w
           ++ twilio_events net_ok (phone_number (sender (chat w))) didnt_understand
                (net_calls w) (reply_chunks reply)
           ++ Append (make_message reply assistant)
           :: match honored img_prompt with
              | Some p => Append (make_message (img_audit p) system)
                            :: GenerateImage p :: sends
              | None => []
              end
           ++ [Save]
    /\ forallb is_send sends = true.
Proof.
  unfold twilio_reply_steps.
  unfold bind at 1. rewrite twilio_relay_run.
  unfold bind at 1. unfold add_message at 1. run_monad.
  match goal with
  | |- context [twilio_image_step _ _ _ ?w1] =>
      destruct (twilio_image_step_run img_prompt w1) as (w2 & sends & Hrun & Hm & Ht & Hs)
  end.
  rewrite Hrun. cbn [chat trace messages set_messages] in Hm, Ht.
  eexists; exists sends. split; [reflexivity|].
  cbn [chat trace messages]. rewrite Hm, Ht.
  rewrite <- !app_assoc. cbn [app].
  repeat split; auto.
Qed.

Lemma cloud_image_step_run (img_prompt : option string) (to : string) (w : World) :
  exists o w' sends,
    cloud_image_step net_ok text_to_image img_prompt to w = (o, w')
    /\ chat w' = chat w
    /\ trace w'
       = trace w ++ match honored img_prompt with
                    | Some p => GenerateImage p :: sends
                    | None => []
                    end
    /\ forallb is_send sends = true.
Proof.
  unfold cloud_image_step.
  destruct (honored img_prompt) as [p|] eqn:H.
  - apply honored_some in H as [-> Ht]. rewrite Ht.
    unfold check_and_send_image_generation, cloud_send_image, cloud_send_message.
    run_monad.
    destruct (text_to_image p) as [[url|]|e]; run_monad;
      repeat match goal with
             | |- context [net_ok ?n] => destruct (net_ok n); run_monad
             | |- context [PyStr.truthy ?o] => destruct (PyStr.truthy o); run_monad
             end;
      eexists; eexists; eexists; (split; [reflexivity|]); cbn [chat trace];
      rewrite <- ?app_assoc; cbn [app];
      (split; [reflexivity|]); (split; [reflexivity|]); reflexivity.
  - exists (Ok tt), w, []. rewrite !app_nil_r.
    apply honored_none in H as [->|(p & -> & Ht)]; [|rewrite Ht]; auto.
Qed.

(** The Cloud turn from the relay on.  When the channel takes every chunk the
    assistant message is appended after them and the directive (if any) is
    fulfilled, with nothing recorded for it; when a send is refused the turn
    stops there. *)
Lemma cloud_reply_steps_run (reply : string) (img_prompt : option string)
    (to : string) (w : World) :
  if all_accepted net_ok (net_calls w) (List.length (reply_chunks reply))
  then
    exists o w' sends,
      cloud_reply_steps net_ok text_to_image reply img_prompt to w = (o, w')
      /\ messages (chat w') = messages (chat w) ++ [make_message reply assistant]
      /\ trace w'
         = trace w
             ++ map (fun t => SendText to t true) (reply_chunks reply)
             ++ Append (make_message reply assistant)
             :: match honored img_prompt with
                | Some p => GenerateImage p :: sends
                | None => []
                end
      /\ forallb is_send sends = true
  else
    cloud_reply_steps net_ok text_to_image reply img_prompt to w
    = (Raise RequestException,
       mkWorld (chat w)
         (trace w ++ cloud_events net_ok to (net_calls w) (reply_chunks reply))
         (net_calls w
          + List.length (cloud_events net_ok to (net_calls w) (reply_chunks reply)))).
Proof.
  unfold cloud_reply_steps.
  destruct (all_accepted net_ok (net_calls w) (List.length (reply_chunks reply))) eqn:Hall;
    unfold bind at 1; rewrite cloud_relay_run, Hall; [|reflexivity].
  rewrite (cloud_events_accepted _ _ _ _ Hall).
  unfold bind at 1. unfold add_message at 1. run_monad.
  match goal with
  | |- context [cloud_image_step _ _ _ _ ?w1] =>
      destruct (cloud_image_step_run img_prompt to w1) as (o & w2 & sends & Hrun & Hc & Ht & Hs)
  end.
  rewrite Hrun. cbn [chat trace messages set_messages] in Hc, Ht.
  destruct o as [[]|e]; eexists; eexists; exists sends; (split; [reflexivity|]);
    rewrite Hc, Ht; cbn [messages set_messages];
    rewrite <- !app_assoc; cbn [app]; repeat split; auto.
Qed.

End ReplySteps.

(** ** A turn from the user message to the save *)

Section ActiveTurns.

Variable net_ok : nat -> bool.
Variable chatgpt_completion : list Message -> outcome string.
Variable text_to_image : string -> outcome (option string).
Variable language_detection : string -> outcome string.
Variable verify_image_generation : string -> string * option string.

(** Both handlers up to the answer of the completion service: the bootstrap
    on a transcript of length 1, whose failure ends the turn, then the user
    message and the request with the transcript that ends with it. *)
Lemma active_turn_head (text : string) (k : string * option string -> M Response)
    (w : World) :
  (c <- get_chat ;;
   when (List.length (messages c) =? 1)%nat
        (ensure_user_language language_detection text) ;;
   add_message text user ;;
   r <- generate_reply chatgpt_completion verify_image_generation ;;
   k r) w
  = let boot := (List.length (messages (chat w)) =? 1)%nat in
    let msgs := messages (chat w) ++ [make_message text user] in
    let go (c : Chat) :=
      let w1 := mkWorld (set_messages msgs c)
                  (trace w ++ (if boot then [DetectLanguage text] else [])
                     ++ [Append (make_message text user); Completion msgs])
                  (net_calls w) in
      match chatgpt_completion msgs with
      | Ok raw => k (verify_image_generation (PyStr.strip raw)) w1
      | Raise e => (Raise e, w1)
      end in
    if boot then
      match language_detection text with
      | Ok lang => go (set_language lang (chat w))
      | Raise e =>
          (Raise e, mkWorld (chat w) (trace w ++ [DetectLanguage text]) (net_calls w))
      end
    else go (chat w).
Proof.
  cbv zeta. unfold generate_reply, ensure_user_language. run_monad.
  destruct (List.length (messages (chat w)) =? 1)%nat; run_monad.
  - unfold bind, lift. destruct (language_detection text) as [lang|e]; [|reflexivity].
    run_monad. rewrite <- ?app_assoc. cbn [app].
    destruct (chatgpt_completion (messages (chat w) ++ [make_message text user]));
      reflexivity.
  - rewrite <- ?app_assoc; cbn [app];
      destruct (chatgpt_completion (messages (chat w) ++ [make_message text user]));
      reflexivity.
Qed.

(** The same when the bootstrap, if there is one, succeeds. *)
Lemma active_turn_head_ok (text : string) (k : string * option string -> M Response)
    (w : World) :
  bootstrap_result language_detection (List.length (messages (chat w)) =? 1)%nat text
  = Ok tt ->
  exists c1,
    messages c1 = messages (chat w) ++ [make_message text user]
    /\ sender c1 = sender (chat w)
    /\ (c <- get_chat ;;
        when (List.length (messages c) =? 1)%nat
             (ensure_user_language language_detection text) ;;
        add_message text user ;;
        r <- generate_reply chatgpt_completion verify_image_generation ;;
        k r) w
       = let w1 := mkWorld c1
                     (trace w
                        ++ (if (List.length (messages (chat w)) =? 1)%nat
                            then [DetectLanguage text] else [])
                        ++ [Append (make_message text user);
                            Completion (messages (chat w) ++ [make_message text user])])
                     (net_calls w) in
         match chatgpt_completion (messages (chat w) ++ [make_message text user]) with
         | Ok raw => k (verify_image_generation (PyStr.strip raw)) w1
         | Raise e => (Raise e, w1)
         end.
Proof.
  intros Hb. rewrite active_turn_head. cbv zeta. unfold bootstrap_result in Hb.
  destruct (List.length (messages (chat w)) =? 1)%nat.
  - destruct (language_detection text) as [lang|e]; [|discriminate].
    eexists. split; [|split; [|reflexivity]]; reflexivity.
  - eexists. split; [|split; [|reflexivity]]; reflexivity.
Qed.

End ActiveTurns.


(** ** Sends and what they leave in the trace *)

Lemma count_zero_of_forallb (p q : Event -> bool) (evs : list Event) :
  (forall e, p e = true -> q e = false) ->
  forallb p evs = true -> count q evs = 0.
Proof.
  intros Hpq. induction evs as [|e evs IH]; [reflexivity|].
  cbn [forallb]. intros [He Hq]%andb_prop.
  unfold count in *. cbn [filter]. rewrite (Hpq e He). auto.
Qed.

Lemma sends_no_append (r : Role) (evs : list Event) :
  forallb is_send evs = true -> count (is_append_of r) evs = 0.
Proof. apply count_zero_of_forallb. intros []; cbn; congruence. Qed.

Lemma sends_no_generate (evs : list Event) :
  forallb is_send evs = true -> count is_generate evs = 0.
Proof. apply count_zero_of_forallb. intros []; cbn; congruence. Qed.

Lemma sends_no_record (evs : list Event) :
  forallb is_send evs = true -> count is_record evs = 0.
Proof. apply count_zero_of_forallb. intros []; cbn; congruence. Qed.

Lemma twilio_events_are_sends (net_ok : nat -> bool) (to apology : string)
    (n : nat) (texts : list string) :
  forallb is_send (twilio_events net_ok to apology n texts) = true.
Proof.
  revert n; induction texts as [|t texts IH]; intros n; [reflexivity|].
  cbn [twilio_events forallb is_send andb].
  rewrite forallb_app, IH. destruct (net_ok n); reflexivity.
Qed.

Lemma cloud_events_are_sends (net_ok : nat -> bool) (to : string)
    (n : nat) (texts : list string) :
  forallb is_send (cloud_events net_ok to n texts) = true.
Proof.
  revert n; induction texts as [|t texts IH]; intros n; [reflexivity|].
  cbn [cloud_events forallb is_send andb].
  destruct (net_ok n); [apply IH | reflexivity].
Qed.

Lemma accepted_are_sends (to : string) (texts : list string) :
  forallb is_send (map (fun t => SendText to t true) texts) = true.
Proof. induction texts as [|t texts IH]; [reflexivity | exact IH]. Qed.

Lemma delivered_texts_app (xs ys : list Event) :
  delivered_texts (xs ++ ys) = delivered_texts xs ++ delivered_texts ys.
Proof.
  induction xs as [|e xs IH]; [reflexivity|].
  destruct e as [? ? []| | | | | | | | | | |]; cbn; now rewrite ?IH.
Qed.

Lemma delivered_texts_twilio (net_ok : nat -> bool) (to apology : string)
    (n : nat) (texts : list string) :
  delivered_texts (twilio_events net_ok to apology n texts)
  = substituted net_ok apology n texts.
Proof.
  revert n; induction texts as [|t texts IH]; intros n; [reflexivity|].
  cbn [twilio_events substituted].
  destruct (net_ok n); cbn; now rewrite IH.
Qed.

Lemma delivered_texts_cloud (net_ok : nat -> bool) (to : string)
    (n : nat) (texts : list string) :
  exists k, delivered_texts (cloud_events net_ok to n texts) = firstn k texts.
Proof.
  revert n; induction texts as [|t texts IH]; intros n; [exists 0; reflexivity|].
  cbn [cloud_events]. destruct (net_ok n).
  - destruct (IH (S n)) as (k & Hk). exists (S k). cbn. now rewrite Hk.
  - exists 0. reflexivity.
Qed.

(** C5 (as amended): on the Twilio transport a turn that reaches the relay
    appends exactly one assistant message, after every chunk has been handed
    to the channel, whatever the channel did with the chunks; its content is
    the cleaned reply.  On the Cloud transport the same holds when the channel
    accepts every chunk; a refused chunk raises out of the relay and the turn
    ends without an assistant message. *)
Theorem assistant_append_spec
    (net_ok : nat -> bool) (text_to_image : string -> outcome (option string))
    (reply : string) (img_prompt : option string) (w : World) :
  (exists w' sends rest,
      twilio_reply_steps net_ok text_to_image reply img_prompt w = (Ok ok_response, w')
      /\ trace w' = trace w ++ sends ++ Append (make_message reply assistant) :: rest
      /\ sent_texts sends = reply_chunks reply
      /\ count (is_append_of assistant) sends = 0
      /\ count (is_append_of assistant) rest = 0
      /\ messages (chat w')
         = messages (chat w) ++ make_message reply assistant :: audit_of img_prompt)
  /\ (forall to,
        if all_accepted net_ok (net_calls w) (List.length (reply_chunks reply))
        then
          exists o w' sends rest,
            cloud_reply_steps net_ok text_to_image reply img_prompt to w = (o, w')
            /\ trace w' = trace w ++ sends ++ Append (make_message reply assistant) :: rest
            /\ sent_texts sends = reply_chunks reply
            /\ count (is_append_of assistant) sends = 0
            /\ count (is_append_of assistant) rest = 0
            /\ messages (chat w') = messages (chat w) ++ [make_message reply assistant]
        else
          exists w' sends,
            cloud_reply_steps net_ok text_to_image reply img_prompt to w
            = (Raise RequestException, w')
            /\ trace w' = trace w ++ sends
            /\ count (is_append_of assistant) sends = 0
            /\ messages (chat w') = messages (chat w)).
Proof.
  split.
  - destruct (twilio_reply_steps_run net_ok text_to_image reply img_prompt w)
      as (w' & sends & Hrun & Hm & Ht & Hs).
    exists w'. eexists. eexists. split; [exact Hrun|]. split; [exact Ht|].
    split; [apply sent_texts_twilio|].
    split; [apply sends_no_append, twilio_events_are_sends|].
    split; [|exact Hm].
    destruct (honored img_prompt); cbn [app]; unfold count in *; cbn [filter is_append_of];
      [|reflexivity].
    cbn. rewrite filter_app, length_app. cbn [filter is_append_of List.length].
    apply (sends_no_append assistant) in Hs. unfold count in Hs. rewrite Hs. reflexivity.
  - intros to.
    pose proof (cloud_reply_steps_run net_ok text_to_image reply img_prompt to w) as H.
    destruct (all_accepted net_ok (net_calls w) (List.length (reply_chunks reply))) eqn:Hall.
    + destruct H as (o & w' & sends & Hrun & Hm & Ht & Hs).
      exists o, w'. eexists. eexists. split; [exact Hrun|]. split; [exact Ht|].
      split.
      { clear. induction (reply_chunks reply) as [|c cs IH]; cbn; [reflexivity | now rewrite IH]. }
      split; [apply sends_no_append, accepted_are_sends|].
      split; [|exact Hm].
      destruct (honored img_prompt); [|reflexivity].
      unfold count. cbn [filter is_append_of].
      apply (sends_no_append assistant) in Hs. exact Hs.
    + eexists. eexists. split; [exact H|]. cbn [trace chat].
      split; [reflexivity|]. split; [|reflexivity].
      apply sends_no_append, cloud_events_are_sends.
Qed.

(** C5 (as stated) fails on the Cloud transport: in a reply of three chunks
    whose second chunk is refused, the first chunk is delivered, the third is
    never sent, and no assistant message is appended; the handler answers
    with the error status. *)
Lemma assistant_append_counterexample :
  let reply := PyStr.replicate 3100 "a"%char in
  let r := process_webhook (refuse_at 2) (demo_completion reply) demo_text_to_image
             demo_language demo_no_directive demo_format (Some demo_template)
             "2024-05-01" (demo_webhook "Hi") (quiet_world demo_chat) in
  List.length (reply_chunks reply) = 3
  /\ fst r = Ok error_response
  /\ sent_texts (trace (snd r)) = [chunk_at reply 0; chunk_at reply 1500]
  /\ delivered_texts (trace (snd r)) = [chunk_at reply 0]
  /\ count (is_append_of assistant) (trace (snd r)) = 0
  /\ map role (messages (chat (snd r))) = [system; user].
Proof. vm_compute. repeat split. Qed.

Lemma returns_ret {A} (Q : A -> Prop) (a : A) : Q a -> returns Q (ret a).
Proof. intros Ha w b w' H. injection H as <- _. exact Ha. Qed.

Lemma returns_bind {A B} (Q : B -> Prop) (c : M A) (k : A -> M B) :
  (forall a, returns Q (k a)) -> returns Q (bind c k).
Proof.
  intros Hk w b w' H. unfold bind in H.
  destruct (c w) as [[a|e] w1]; [exact (Hk a w1 b w' H) | discriminate].
Qed.

Lemma cloud_body_returns_ok
    (net_ok : nat -> bool)
    (chatgpt_completion : list Message -> outcome string)
    (text_to_image : string -> outcome (option string))
    (language_detection : string -> outcome string)
    (verify_image_generation : string -> string * option string)
    (format : string -> list (string * string) -> outcome string)
    (start_template : option string) (today : string) (data : json) :
  returns (fun resp => resp = ok_response)
    (process_webhook_body net_ok chatgpt_completion text_to_image language_detection
       verify_image_generation format start_template today data).
Proof.
  unfold process_webhook_body, cloud_text_turn, cloud_active_turn, cloud_reply_steps.
  apply returns_bind. intros [md|]; [|now apply returns_ret].
  destruct (negb (eq_str (p_type md) "text")); [now apply returns_ret|].
  repeat (apply returns_bind; intros).
  now apply returns_ret.
Qed.

Lemma cloud_handler_catches
    (net_ok : nat -> bool)
    (chatgpt_completion : list Message -> outcome string)
    (text_to_image : string -> outcome (option string))
    (language_detection : string -> outcome string)
    (verify_image_generation : string -> string * option string)
    (format : string -> list (string * string) -> outcome string)
    (start_template : option string) (today : string) (data : json) (w : World) :
  let body := process_webhook_body net_ok chatgpt_completion text_to_image
                language_detection verify_image_generation format start_template
                today data w in
  process_webhook net_ok chatgpt_completion text_to_image language_detection
    verify_image_generation format start_template today data w
  = match fst body with
    | Ok resp => (Ok resp, snd body)
    | Raise _ => (Ok error_response, snd body)
    end.
Proof.
  cbv zeta. unfold process_webhook, try_except.
  destruct (process_webhook_body _ _ _ _ _ _ _ _ _ _) as [[resp|e] w']; reflexivity.
Qed.

(** C6 (as amended): the Twilio client swallows a refused send and emits the
    fixed apology in its place, so the Twilio turn always goes on to the
    assistant append and the save and answers ok.  The Cloud client logs a
    refused send and raises it again: nothing is put in its place, the relay
    stops at that chunk and the turn ends before the assistant append.  The
    handler catches every exception of its body and answers it with the error
    status (HTTP 500), so the failure does not reach the caller either: a
    text message whose reply meets a refused send is answered with the error
    status, the transcript ending with the user message. *)
Theorem send_failure_spec
    (net_ok : nat -> bool) (text_to_image : string -> outcome (option string))
    (reply : string) (img_prompt : option string) (w : World) :
  (exists w' sends rest,
      twilio_reply_steps net_ok text_to_image reply img_prompt w = (Ok ok_response, w')
      /\ trace w'
         = trace w ++ sends ++ Append (make_message reply assistant) :: rest ++ [Save]
      /\ delivered_texts sends
         = substituted net_ok didnt_understand (net_calls w) (reply_chunks reply))
  /\ (forall to text,
        cloud_send_message net_ok to text w
        = ((if net_ok (net_calls w) then Ok tt else Raise RequestException),
           mkWorld (chat w) (trace w ++ [SendText to text (net_ok (net_calls w))])
             (S (net_calls w))))
  /\ (forall to,
        all_accepted net_ok (net_calls w) (List.length (reply_chunks reply)) = false ->
        exists w' sends k,
          cloud_reply_steps net_ok text_to_image reply img_prompt to w
          = (Raise RequestException, w')
          /\ chat w' = chat w
          /\ trace w' = trace w ++ sends
          /\ delivered_texts sends = firstn k (reply_chunks reply)
          /\ count is_record sends = 0)
  /\ (forall chatgpt_completion language_detection verify_image_generation format
             start_template today data,
        let body := process_webhook_body net_ok chatgpt_completion text_to_image
                      language_detection verify_image_generation format
                      start_template today data w in
        let r := process_webhook net_ok chatgpt_completion text_to_image
                   language_detection verify_image_generation format start_template
                   today data w in
        text_fields_are_strings data = true ->
        (fst r = Ok ok_response \/ fst r = Ok error_response)
        /\ ((exists e, fst body = Raise e) -> r = (Ok error_response, snd body)))
  /\ (forall chatgpt_completion language_detection verify_image_generation format
             start_template today from display_name id timestamp body raw w0,
        cloud_intake net_ok format start_template today id display_name w0
        = (Ok tt, w) ->
        bootstrap_result language_detection
          (List.length (messages (chat w)) =? 1)%nat body = Ok tt ->
        chatgpt_completion (messages (chat w) ++ [make_message body user]) = Ok raw ->
        verify_image_generation (PyStr.strip raw) = (reply, img_prompt) ->
        all_accepted net_ok (net_calls w) (List.length (reply_chunks reply)) = false ->
        exists w' head sends k,
          process_webhook net_ok chatgpt_completion text_to_image language_detection
            verify_image_generation format start_template today
            (text_webhook from display_name id timestamp body) w0
          = (Ok error_response, w')
          /\ messages (chat w') = messages (chat w) ++ [make_message body user]
          /\ trace w' = trace w ++ head ++ sends
          /\ sent_texts head = []
          /\ delivered_texts sends = firstn k (reply_chunks reply)
          /\ count is_record sends = 0).
Proof.
  split; [|split; [|split; [|split]]].
  - destruct (twilio_reply_steps_run net_ok text_to_image reply img_prompt w)
      as (w' & sends & Hrun & Hm & Ht & Hs).
    exists w'. eexists. eexists. split; [exact Hrun|]. split; [exact Ht|].
    apply delivered_texts_twilio.
  - intros to text. apply cloud_send_one.
  - intros to Hall.
    pose proof (cloud_reply_steps_run net_ok text_to_image reply img_prompt to w) as H.
    rewrite Hall in H.
    destruct (delivered_texts_cloud net_ok to (net_calls w) (reply_chunks reply)) as (k & Hk).
    eexists. eexists. exists k. split; [exact H|]. cbn [chat trace].
    repeat split; [exact Hk|].
    apply sends_no_record, cloud_events_are_sends.
  - intros chatgpt_completion language_detection verify_image_generation format
      start_template today data.
    cbv zeta. intros _. rewrite cloud_handler_catches. cbv zeta.
    pose proof (cloud_body_returns_ok net_ok chatgpt_completion text_to_image
                  language_detection verify_image_generation format start_template
                  today data w) as Hret.
    destruct (process_webhook_body _ _ _ _ _ _ _ _ _ _) as [[resp|e] w'] eqn:E;
      cbn [fst snd].
    + rewrite (Hret resp w' eq_refl). split; [left; reflexivity|].
      intros (e & He). discriminate.
    + split; [right; reflexivity | reflexivity].
  - intros chatgpt_completion language_detection verify_image_generation format
      start_template today from display_name id timestamp body raw w0
      Hin Hboot Hc Hv Hall.
    rewrite (cloud_text_webhook_answer net_ok chatgpt_completion text_to_image
               language_detection verify_image_generation format start_template
               today from display_name id timestamp body w0 w Hin).
    unfold cloud_active_turn.
    destruct (active_turn_head_ok chatgpt_completion language_detection
                verify_image_generation body
                (fun r => cloud_reply_steps net_ok text_to_image (fst r) (snd r) from)
                w Hboot)
      as (c1 & Hc1 & _ & ->).
    cbv zeta. rewrite Hc, Hv. cbn [fst snd].
    match goal with
    | |- context [cloud_reply_steps _ _ _ _ _ ?w1] =>
        pose proof (cloud_reply_steps_run net_ok text_to_image reply img_prompt from w1)
          as H
    end.
    cbn [net_calls] in H. rewrite Hall in H. rewrite H.
    destruct (delivered_texts_cloud net_ok from (net_calls w) (reply_chunks reply))
      as (k & Hk).
    eexists. eexists. eexists. exists k.
    split; [reflexivity|]. cbn [chat trace].
    split; [exact Hc1|]. split; [now rewrite <- app_assoc|].
    split; [destruct (_ =? _)%nat; reflexivity|].
    split; [exact Hk|].
    apply sends_no_record, cloud_events_are_sends.
Qed.

Lemma send_failure_witness :
  exists w' sends k,
    cloud_reply_steps (refuse_at 0) demo_text_to_image "Hello!" None "34600000000"
      (quiet_world demo_chat)
    = (Raise RequestException, w')
    /\ chat w' = demo_chat
    /\ trace w' = [] ++ sends
    /\ delivered_texts sends = firstn k (reply_chunks "Hello!")
    /\ count is_record sends = 0.
Proof.
  apply (send_failure_spec (refuse_at 0) demo_text_to_image "Hello!" None
           (quiet_world demo_chat)).
  reflexivity.
Defined.

(** C6 (as stated) fails on the Cloud transport: when the channel refuses the
    only message of a reply, nothing is delivered in its place, no assistant
    message is appended, and the handler answers with the error status. *)
Lemma send_failure_counterexample :
  let r := process_webhook (refuse_at 1) (demo_completion "Hello!") demo_text_to_image
             demo_language demo_no_directive demo_format (Some demo_template)
             "2024-05-01" (demo_webhook "Hi") (quiet_world demo_chat) in
  fst r = Ok error_response
  /\ sent_texts (trace (snd r)) = ["Hello!"]
  /\ delivered_texts (trace (snd r)) = []
  /\ count (is_append_of assistant) (trace (snd r)) = 0.
Proof. vm_compute. repeat split. Qed.

(** ** The image directive *)

(** On the Twilio transport a honoured directive is recorded right after the
    assistant message and before the image is generated, and the image is
    generated once. *)
Lemma twilio_directive_audited
    (net_ok : nat -> bool) (text_to_image : string -> outcome (option string))
    (reply : string) (img_prompt : option string) (p : string) (w : World) :
  honored img_prompt = Some p ->
  exists w' pre sends,
    twilio_reply_steps net_ok text_to_image reply img_prompt w = (Ok ok_response, w')
    /\ trace w'
       = trace w ++ pre
           ++ Append (make_message reply assistant)
           :: Append (make_message (img_audit p) system)
           :: GenerateImage p :: sends ++ [Save]
    /\ count is_generate pre = 0
    /\ count is_generate sends = 0
    /\ messages (chat w')
       = messages (chat w)
           ++ [make_message reply assistant; make_message (img_audit p) system].
Proof.
  intros Hp.
  destruct (twilio_reply_steps_run net_ok text_to_image reply img_prompt w)
    as (w' & sends & Hrun & Hm & Ht & Hs).
  unfold audit_of in Hm. rewrite Hp in Hm, Ht.
  exists w'. eexists. exists sends. split; [exact Hrun|]. split; [exact Ht|].
  split; [apply sends_no_generate, twilio_events_are_sends|].
  split; [apply sends_no_generate, Hs | exact Hm].
Qed.

(** On the Cloud transport the image is generated right after the assistant
    message; nothing is recorded for the directive. *)
Lemma cloud_directive_not_audited
    (net_ok : nat -> bool) (text_to_image : string -> outcome (option string))
    (reply : string) (img_prompt : option string) (p to : string) (w : World) :
  honored img_prompt = Some p ->
  all_accepted net_ok (net_calls w) (List.length (reply_chunks reply)) = true ->
  exists o w' pre sends,
    cloud_reply_steps net_ok text_to_image reply img_prompt to w = (o, w')
    /\ trace w'
       = trace w ++ pre
           ++ Append (make_message reply assistant) :: GenerateImage p :: sends
    /\ forallb is_send pre = true
    /\ forallb is_send sends = true
    /\ messages (chat w') = messages (chat w) ++ [make_message reply assistant].
Proof.
  intros Hp Hall.
  pose proof (cloud_reply_steps_run net_ok text_to_image reply img_prompt to w) as H.
  rewrite Hall, Hp in H. destruct H as (o & w' & sends & Hrun & Hm & Ht & Hs).
  exists o, w'. eexists. exists sends. split; [exact Hrun|]. split; [exact Ht|].
  split; [apply accepted_are_sends|]. split; [exact Hs | exact Hm].
Qed.

(** C7, the Cloud handler at the scenario of the specification: the reply
    carries the directive for a red bicycle, the image is generated, and the
    transcript ends with the assistant message; no system message records the
    directive. *)
Theorem cloud_directive_leaves_no_audit :
  let r := process_webhook always_accepted (demo_completion demo_directive_answer)
             demo_text_to_image demo_language demo_directive demo_format
             (Some demo_template) "2024-05-01" (demo_webhook "Draw me a bicycle")
             (quiet_world demo_chat) in
  fst r = Ok ok_response
  /\ messages (chat (snd r))
     = [mkMessage system "You are a helpful assistant.";
        mkMessage user "Draw me a bicycle";
        mkMessage assistant "Here is your answer."]
  /\ filter is_generate (trace (snd r)) = [GenerateImage "a red bicycle"]
  /\ count (is_append_of system) (trace (snd r)) = 0.
Proof. vm_compute. repeat split. Qed.

(** ** Malformed and non-text webhook bodies *)

Section CloudIntake.

Variable net_ok : nat -> bool.
Variable chatgpt_completion : list Message -> outcome string.
Variable text_to_image : string -> outcome (option string).
Variable language_detection : string -> outcome string.
Variable verify_image_generation : string -> string * option string.
Variable format : string -> list (string * string) -> outcome string.
Variable start_template : option string.

(** A missing key or an empty list is logged and parsed to [None]. *)
Lemma parse_swallows_key_and_index (data : json) :
  parse_body data = Raise KeyError \/ parse_body data = Raise IndexError ->
  parse_whatsapp_message data = Ok None.
Proof. unfold parse_whatsapp_message. intros [-> | ->]; reflexivity. Qed.

(** A body that parses to [None] is acknowledged and nothing else happens. *)
Lemma unparsed_payload_acknowledged (today : string) (data : json) (w : World) :
  parse_whatsapp_message data = Ok None ->
  process_webhook net_ok chatgpt_completion text_to_image language_detection
    verify_image_generation format start_template today data w
  = (Ok ok_response, w).
Proof.
  intros H. unfold process_webhook, process_webhook_body, try_except, bind, lift.
  now rewrite H.
Qed.

(** A message that is not a text message is acknowledged and nothing else
    happens. *)
Lemma non_text_acknowledged (today : string) (data : json) (md : Parsed) (w : World) :
  parse_whatsapp_message data = Ok (Some md) ->
  eq_str (p_type md) "text" = false ->
  process_webhook net_ok chatgpt_completion text_to_image language_detection
    verify_image_generation format start_template today data w
  = (Ok ok_response, w).
Proof.
  intros H Ht. unfold process_webhook, process_webhook_body, try_except, bind, lift.
  now rewrite H, Ht.
Qed.

End CloudIntake.

(** C9, the Cloud handler on the body [{"entry": [{"changes": [{"value":
    null}]}]}]: the membership test on [null] raises [TypeError], which
    [parse_whatsapp_message] does not catch; the handler answers with the
    error status (500), having sent nothing and changed nothing. *)
Theorem null_value_payload_answers_error
    (net_ok : nat -> bool)
    (chatgpt_completion : list Message -> outcome string)
    (text_to_image : string -> outcome (option string))
    (language_detection : string -> outcome string)
    (verify_image_generation : string -> string * option string)
    (format : string -> list (string * string) -> outcome string)
    (start_template : option string) (today : string) (w : World) :
  parse_whatsapp_message demo_null_value_webhook = Raise TypeError
  /\ process_webhook net_ok chatgpt_completion text_to_image language_detection
       verify_image_generation format start_template today demo_null_value_webhook w
     = (Ok error_response, w).
Proof. split; reflexivity. Qed.

(** ** The system message *)

(** C2 (as amended): with a start template configured, the system prompt is
    rendered from the sender's name and the date of the day and stored in the
    conversation, on both transports.  The Twilio handler then overwrites the
    first message of a non-empty transcript, in place, with it, and the
    transcript keeps its length.  The Cloud handler puts a system message
    with it in front of the transcript only when the transcript is empty or
    does not start with a system message; a transcript that starts with a
    system message is left as it is.  A template that [str.format] rejects
    ends the step with that exception, and nothing is stored or written. *)
Theorem resolve_system_spec
    (format : string -> list (string * string) -> outcome string)
    (template today sender_name : string) (w : World) :
  PyStr.truthy (Some template) = true ->
  let tw := twilio_resolve_system format (Some template) today sender_name w in
  let cl := cloud_resolve_system format (Some template) today sender_name w in
  match format template [("user", sender_name); ("today", today)] with
  | Ok rendered =>
      let m := make_message rendered system in
      start_system_message (chat (snd tw)) = Some rendered
      /\ (forall m0 rest,
             messages (chat w) = m0 :: rest ->
             fst tw = Ok tt
             /\ messages (chat (snd tw)) = m :: rest
             /\ List.length (messages (chat (snd tw))) = List.length (messages (chat w))
             /\ trace (snd tw) = trace w ++ [SetSystem m])
      /\ (messages (chat w) = [] -> fst tw = Raise IndexError)
      /\ fst cl = Ok tt
      /\ start_system_message (chat (snd cl)) = Some rendered
      /\ match messages (chat w) with
         | m0 :: _ =>
             if Role_eqb (role m0) system
             then messages (chat (snd cl)) = messages (chat w)
                  /\ trace (snd cl) = trace w
             else messages (chat (snd cl)) = m :: messages (chat w)
                  /\ trace (snd cl) = trace w ++ [InsertSystem m]
         | [] => messages (chat (snd cl)) = [m]
                 /\ trace (snd cl) = trace w ++ [InsertSystem m]
         end
  | Raise e => tw = (Raise e, w) /\ cl = (Raise e, w)
  end.
Proof.
  intros Ht. cbv zeta.
  unfold twilio_resolve_system, cloud_resolve_system, setitem0. rewrite Ht.
  unfold bind at 1 3. unfold lift.
  destruct (format template _) as [rendered|e]; [|split; reflexivity].
  run_monad.
  destruct (messages (chat w)) as [|m0 rest] eqn:E; run_monad; rewrite ?E.
  - repeat split; intros; try discriminate; reflexivity.
  - destruct (Role_eqb (role m0) system); cbn [negb]; run_monad; rewrite ?E;
      repeat split; intros; try discriminate; try congruence.
Qed.

Lemma resolve_system_witness :
  let rendered := "You are helping Ada. Today is 2024-05-01." in
  let tw := twilio_resolve_system demo_format (Some demo_template) "2024-05-01" "Ada"
              (quiet_world demo_chat) in
  demo_format demo_template [("user", "Ada"); ("today", "2024-05-01")] = Ok rendered
  /\ start_system_message (chat (snd tw)) = Some rendered
  /\ fst tw = Ok tt
  /\ messages (chat (snd tw)) = [make_message rendered system]
  /\ List.length (messages (chat (snd tw))) = List.length (messages demo_chat)
  /\ trace (snd tw) = [] ++ [SetSystem (make_message rendered system)].
Proof.
  cbv zeta.
  pose proof (resolve_system_spec demo_format demo_template "2024-05-01" "Ada"
                (quiet_world demo_chat) eq_refl) as H.
  cbv zeta in H.
  change (demo_format demo_template [("user", "Ada"); ("today", "2024-05-01")])
    with (@Ok string "You are helping Ada. Today is 2024-05-01.") in H.
  cbv iota beta in H. destruct H as (Hs & H & _).
  split; [reflexivity|]. split; [exact Hs|].
  exact (H _ _ eq_refl).
Defined.

(** C2 (as stated) fails on the Cloud transport: a transcript that starts with
    the system prompt of an earlier day keeps that message, and a transcript
    that starts with a user message gets one message longer.  On both
    transports it fails for a template with a field other than the two that
    are given: the step raises [KeyError] and writes nothing. *)
Lemma resolve_system_counterexample :
  let stale := mkMessage system "You are helping Ada. Today is 2024-04-30." in
  let question := mkMessage user "Hi" in
  let run ms :=
    snd (cloud_resolve_system demo_format (Some demo_template) "2024-05-01" "Ada"
           (quiet_world (set_messages ms demo_chat))) in
  let agent_template := "You are {agent_name}, helping {user}." in
  messages (chat (run [stale; question])) = [stale; question]
  /\ start_system_message (chat (run [stale; question]))
     = Some "You are helping Ada. Today is 2024-05-01."
  /\ List.length (messages (chat (run [question]))) = 2
  /\ twilio_resolve_system demo_format (Some agent_template) "2024-05-01" "Ada"
       (quiet_world demo_chat)
     = (Raise KeyError, quiet_world demo_chat)
  /\ cloud_resolve_system demo_format (Some agent_template) "2024-05-01" "Ada"
       (quiet_world demo_chat)
     = (Raise KeyError, quiet_world demo_chat).
Proof. vm_compute. repeat split. Qed.

(** ** The termination check *)

Lemma lstrip_blank (s : string) : PyStr.blank s = true -> PyStr.lstrip s = EmptyString.
Proof.
  induction s as [|c s IH]; [reflexivity|].
  cbn. destruct (PyStr.isspace c); [exact IH | discriminate].
Qed.

Lemma lstrip_not_blank (s : string) :
  PyStr.blank s = false ->
  exists c rest, PyStr.lstrip s = String c rest /\ PyStr.isspace c = false.
Proof.
  induction s as [|c s IH]; [discriminate|].
  cbn. destruct (PyStr.isspace c) eqn:E; [exact IH | eauto].
Qed.

Lemma rstrip_keeps_text (c : ascii) (rest : string) :
  PyStr.isspace c = false -> PyStr.rstrip (String c rest) <> EmptyString.
Proof.
  intros E. cbn. destruct (PyStr.rstrip rest); [rewrite E|]; discriminate.
Qed.

Lemma strip_empty_iff_blank (s : string) :
  PyStr.strip s = EmptyString <-> PyStr.blank s = true.
Proof.
  unfold PyStr.strip. split.
  - intros H. destruct (PyStr.blank s) eqn:B; [reflexivity|].
    destruct (lstrip_not_blank s B) as (c & rest & Hl & Hc).
    rewrite Hl in H. now apply rstrip_keeps_text in H.
  - intros B. now rewrite lstrip_blank.
Qed.

Lemma check_message_empty_iff (msg : option string) :
  check_message_empty msg = true <-> msg = None \/ PyStr.blank (the msg) = true.
Proof.
  destruct msg as [m|]; cbn.
  - rewrite String.eqb_eq, strip_empty_iff_blank. split; [auto | intros [H|H]]; congruence.
  - split; auto.
Qed.

Section TwilioIntake.

Variable net_ok : nat -> bool.
Variable chatgpt_completion : list Message -> outcome string.
Variable whisper_transcription : string -> outcome string.
Variable text_to_image : string -> outcome (option string).
Variable language_detection : string -> outcome string.
Variable verify_image_generation : string -> string * option string.
Variable check_conversation_end : string -> Chat -> bool.
Variable format : string -> list (string * string) -> outcome string.
Variable start_template : option string.

(** What happens before the termination check records nothing and sends
    nothing, and keeps the length of the transcript. *)
Lemma twilio_intake_events (today sender_name : string) (m : Inbound) (w : World) :
  let r := (twilio_resolve_system format start_template today sender_name ;;
            verify_and_process_media whisper_transcription m) w in
  exists evs,
    trace (snd r) = trace w ++ evs
    /\ count is_record evs = 0
    /\ sent_texts evs = []
    /\ List.length (messages (chat (snd r))) = List.length (messages (chat w)).
Proof.
  cbv zeta.
  unfold twilio_resolve_system, setitem0, verify_and_process_media.
  destruct start_template as [template|];
    [destruct (PyStr.truthy (Some template));
     [unfold bind at 1 2; unfold lift at 1; destruct (format template _) as [rendered|e]|]|];
    run_monad;
    try (destruct (messages (chat w)) as [|m0 rest] eqn:E; run_monad);
    destruct (in_type m); run_monad;
    try (destruct (media_ref m) as [ref|]; run_monad;
         try (destruct (whisper_transcription ref); run_monad));
    rewrite ?E;
    first [ exists []; rewrite app_nil_r; repeat split; reflexivity
          | eexists; rewrite <- ?app_assoc; cbn [app]; repeat split; reflexivity ].
Qed.

(** The termination check itself: one send, the chat left as it was. *)
Lemma message_empty_or_goodbye_stops (msg : option string) (goodbye : string) (w : World) :
  check_message_empty msg = true
  \/ (check_conversation_end (the msg) (chat w) = true
      /\ format (goodbye_message (chat w)) [("user", name (sender (chat w)))]
         = Ok goodbye) ->
  message_empty_or_goodbye net_ok check_conversation_end format msg w
  = (Ok true,
     mkWorld (chat w)
       (trace w
          ++ [SendText (phone_number (sender (chat w)))
                (if check_message_empty msg then didnt_understand else goodbye)
                (net_ok (net_calls w))])
       (S (net_calls w))).
Proof.
  intros H. unfold message_empty_or_goodbye, twilio_send_message. run_monad.
  destruct (check_message_empty msg); run_monad.
  - destruct (net_ok (net_calls w)); reflexivity.
  - destruct H as [H|[H Hf]]; [discriminate|]. rewrite H.
    unfold bind, lift. rewrite Hf. run_monad.
    destruct (net_ok (net_calls w)); reflexivity.
Qed.

End TwilioIntake.

(** The termination check of the Twilio handler: a turn whose normalized text
    is [None], empty or blank gets the fixed notice, and a turn whose text the
    classifier takes for the end of the conversation gets the goodbye message
    rendered with the sender's name; in both cases that one message is all
    the handler sends, it answers ok, and it appends no message and does not
    save: the chat is the one the resolve step left. *)
Lemma twilio_termination_check
    (net_ok : nat -> bool)
    (chatgpt_completion : list Message -> outcome string)
    (whisper_transcription : string -> outcome string)
    (text_to_image : string -> outcome (option string))
    (language_detection : string -> outcome string)
    (verify_image_generation : string -> string * option string)
    (check_conversation_end : string -> Chat -> bool)
    (format : string -> list (string * string) -> outcome string)
    (start_template : option string)
    (today : string) (req : TwilioRequest) (w : World)
    (msg : option string) (goodbye : string) (w1 : World) :
  (twilio_resolve_system format start_template today
     (match ProfileName req with Some n => n | None => From req end) ;;
   verify_and_process_media whisper_transcription (inbound req)) w = (Ok msg, w1) ->
  check_message_empty msg = true
  \/ (check_conversation_end (the msg) (chat w1) = true
      /\ format (goodbye_message (chat w1)) [("user", name (sender (chat w1)))]
         = Ok goodbye) ->
  let text := if check_message_empty msg then didnt_understand else goodbye in
  (check_message_empty msg = true <-> msg = None \/ PyStr.blank (the msg) = true)
  /\ reply_to_whatsapp_message net_ok chatgpt_completion whisper_transcription
       text_to_image language_detection verify_image_generation
       check_conversation_end format start_template today req w
     = (Ok ok_response,
        mkWorld (chat w1)
          (trace w1
             ++ [SendText (phone_number (sender (chat w1))) text (net_ok (net_calls w1))])
          (S (net_calls w1)))
  /\ (exists evs,
         trace w1 = trace w ++ evs /\ count is_record evs = 0 /\ sent_texts evs = [])
  /\ List.length (messages (chat w1)) = List.length (messages (chat w)).
Proof.
  intros Hin Hstop. cbv zeta.
  split; [apply check_message_empty_iff|].
  pose proof (twilio_intake_events whisper_transcription format start_template today
                (match ProfileName req with Some n => n | None => From req end)
                (inbound req) w) as Hev.
  cbv zeta in Hev. rewrite Hin in Hev. cbn [snd] in Hev.
  destruct Hev as (evs & Ht & Hc & Hs & Hl).
  split; [|split; [exists evs; auto | exact Hl]].
  unfold reply_to_whatsapp_message.
  unfold bind in Hin |- *.
  destruct (twilio_resolve_system _ _ _ _ w) as [[[]|e] w0]; [|discriminate].
  rewrite Hin.
  rewrite (message_empty_or_goodbye_stops net_ok check_conversation_end format msg
             goodbye w1 Hstop).
  reflexivity.
Qed.

Lemma twilio_termination_check_goodbye :
  reply_to_whatsapp_message always_accepted (demo_completion "Hello!") demo_whisper
    demo_text_to_image demo_language demo_no_directive demo_end demo_format None
    "2024-05-01" (demo_text_request "bye") (quiet_world demo_chat)
  = (Ok ok_response,
     mkWorld demo_chat
       [SendText "+34600000000" "Goodbye! I'll be here if you need me." true] 1).
Proof.
  apply (twilio_termination_check always_accepted (demo_completion "Hello!") demo_whisper
           demo_text_to_image demo_language demo_no_directive demo_end demo_format None
           "2024-05-01" (demo_text_request "bye") (quiet_world demo_chat)
           (Some "bye") "Goodbye! I'll be here if you need me." (quiet_world demo_chat)).
  - reflexivity.
  - right. split; reflexivity.
Qed.

(** C4, the Cloud handler on a blank text and on a goodbye.  The Twilio
    handler stops both turns: it sends the fixed notice, or the goodbye
    message, and appends nothing.  The Cloud handler, which imports
    [check_conversation_end] and never calls it, treats both as any other
    text: the text is appended as a user message, the completion service is
    asked, its reply is what is sent and is appended as assistant message;
    neither the notice nor the goodbye message is sent. *)
Theorem cloud_turn_has_no_termination_check :
  let twilio text :=
    reply_to_whatsapp_message always_accepted (demo_completion "Hello!") demo_whisper
      demo_text_to_image demo_language demo_no_directive demo_end demo_format
      (Some demo_template) "2024-05-01" (demo_text_request text)
      (quiet_world demo_chat) in
  let cloud text :=
    process_webhook always_accepted (demo_completion "Hello!") demo_text_to_image
      demo_language demo_no_directive demo_format (Some demo_template)
      "2024-05-01" (demo_webhook text) (quiet_world demo_chat) in
  check_message_empty (Some "   ") = true
  /\ demo_end "bye" demo_chat = true
  /\ sent_texts (trace (snd (twilio "   "))) = [didnt_understand]
  /\ sent_texts (trace (snd (twilio "bye"))) = ["Goodbye! I'll be here if you need me."]
  /\ map role (messages (chat (snd (twilio "   ")))) = [system]
  /\ map role (messages (chat (snd (twilio "bye")))) = [system]
  /\ fst (cloud "   ") = Ok ok_response
  /\ fst (cloud "bye") = Ok ok_response
  /\ sent_texts (trace (snd (cloud "   "))) = ["Hello!"]
  /\ sent_texts (trace (snd (cloud "bye"))) = ["Hello!"]
  /\ messages (chat (snd (cloud "   ")))
     = [mkMessage system "You are a helpful assistant.";
        mkMessage user "   "; mkMessage assistant "Hello!"]
  /\ messages (chat (snd (cloud "bye")))
     = [mkMessage system "You are a helpful assistant.";
        mkMessage user "bye"; mkMessage assistant "Hello!"].
Proof. vm_compute. repeat split. Qed.

(** ** Media *)

(** C8 (as amended): the Cloud handler only processes text messages; any
    other message (a voice note, an image) is acknowledged with the ok status
    and nothing else happens, no transcription included.  On the Twilio
    transport a voice note is transcribed before the termination check, the
    text of the transcription being the text of the turn, and an empty or
    failed media payload gives the empty text, which takes the empty-input
    branch of the termination check. *)
Theorem media_normalization_spec
    (net_ok : nat -> bool)
    (chatgpt_completion : list Message -> outcome string)
    (whisper_transcription : string -> outcome string)
    (text_to_image : string -> outcome (option string))
    (language_detection : string -> outcome string)
    (verify_image_generation : string -> string * option string)
    (check_conversation_end : string -> Chat -> bool)
    (format : string -> list (string * string) -> outcome string)
    (start_template : option string) (today : string) :
  (forall data md w,
      parse_whatsapp_message data = Ok (Some md) ->
      eq_str (p_type md) "text" = false ->
      process_webhook net_ok chatgpt_completion text_to_image language_detection
        verify_image_generation format start_template today data w
      = (Ok ok_response, w))
  /\ (forall req ref t w w1,
         in_type (inbound req) = audio_message ->
         media_ref (inbound req) = Some ref ->
         whisper_transcription ref = Ok t ->
         twilio_resolve_system format start_template today
           (match ProfileName req with Some n => n | None => From req end) w
         = (Ok tt, w1) ->
         reply_to_whatsapp_message net_ok chatgpt_completion whisper_transcription
           text_to_image language_detection verify_image_generation
           check_conversation_end format start_template today req w
         = (stop <- message_empty_or_goodbye net_ok check_conversation_end format (Some t) ;;
            if stop : bool then ret ok_response
            else twilio_active_turn net_ok chatgpt_completion text_to_image
                   language_detection verify_image_generation (Some t))
             (mkWorld (chat w1) (trace w1 ++ [Transcribe ref]) (net_calls w1)))
  /\ (forall req w w1,
         in_type (inbound req) = audio_message ->
         media_ref (inbound req) = None ->
         twilio_resolve_system format start_template today
           (match ProfileName req with Some n => n | None => From req end) w
         = (Ok tt, w1) ->
         reply_to_whatsapp_message net_ok chatgpt_completion whisper_transcription
           text_to_image language_detection verify_image_generation
           check_conversation_end format start_template today req w
         = (Ok ok_response,
            mkWorld (chat w1)
              (trace w1
                 ++ [SendText (phone_number (sender (chat w1))) didnt_understand
                       (net_ok (net_calls w1))])
              (S (net_calls w1)))).
Proof.
  repeat split.
  - intros data md w. apply non_text_acknowledged.
  - intros req ref t w w1 Hty Href Ht Hres.
    unfold reply_to_whatsapp_message. unfold bind at 1. rewrite Hres.
    unfold bind at 1. unfold verify_and_process_media. rewrite Hty, Href.
    unfold bind at 1. unfold emit at 1. unfold bind at 1. unfold lift. rewrite Ht.
    reflexivity.
  - intros req w w1 Hty Href Hres.
    unfold reply_to_whatsapp_message. unfold bind at 1. rewrite Hres.
    unfold bind at 1. unfold verify_and_process_media. rewrite Hty, Href.
    unfold ret at 1. unfold bind at 1.
    rewrite (message_empty_or_goodbye_stops net_ok check_conversation_end format
               (Some EmptyString) EmptyString w1 (or_introl eq_refl)).
    reflexivity.
Qed.

Lemma media_normalization_witness :
  process_webhook always_accepted (demo_completion "Hello!") demo_text_to_image
    demo_language demo_no_directive demo_format (Some demo_template) "2024-05-01"
    demo_audio_webhook (quiet_world demo_chat)
  = (Ok ok_response, quiet_world demo_chat).
Proof.
  eapply (media_normalization_spec always_accepted (demo_completion "Hello!")
            demo_whisper demo_text_to_image demo_language demo_no_directive demo_end
            demo_format (Some demo_template) "2024-05-01").
  - reflexivity.
  - reflexivity.
Defined.

(** C8 (as stated) fails on the Cloud transport: a voice note is acknowledged
    without a call of the Transcription Service, and without the notice of the
    empty-input branch. *)
Lemma media_normalization_counterexample :
  let r := process_webhook always_accepted (demo_completion "Hello!") demo_text_to_image
             demo_language demo_no_directive demo_format (Some demo_template)
             "2024-05-01" demo_audio_webhook (quiet_world demo_chat) in
  (exists md, parse_whatsapp_message demo_audio_webhook = Ok (Some md)
              /\ p_type md = JStr "audio")
  /\ fst r = Ok ok_response
  /\ count is_transcribe (trace (snd r)) = 0
  /\ sent_texts (trace (snd r)) = [].
Proof. vm_compute. repeat split. eexists. split; reflexivity. Qed.

(** * More properties *)

(** ** The size of what is sent *)

Lemma len_take (n : nat) (s : string) :
  PyStr.len (PyStr.take n s) = Nat.min n (PyStr.len s).
Proof.
  revert s; induction n as [|n IH]; intros [|c s]; try reflexivity.
  unfold PyStr.len in *. cbn. now rewrite IH.
Qed.

Lemma len_drop (n : nat) (s : string) :
  PyStr.len (PyStr.drop n s) = PyStr.len s - n.
Proof.
  revert s; induction n as [|n IH]; intros [|c s]; try reflexivity.
  unfold PyStr.len in *. cbn. now rewrite IH.
Qed.

Lemma len_chunk_at (reply : string) (i : nat) :
  PyStr.len (chunk_at reply i)
  = Nat.min 1500 (PyStr.len reply - i)
    + (if (i + 1500 <? PyStr.len reply)%nat then 3 else 0).
Proof.
  unfold chunk_at, PyStr.slice.
  replace (i + 1500 - i) with 1500 by lia.
  destruct (i + 1500 <? PyStr.len reply)%nat.
  - rewrite len_append, len_take, len_drop. reflexivity.
  - rewrite len_take, len_drop. lia.
Qed.

Lemma py_range_bound (stop i : nat) :
  In i (py_range 0 stop 1500) -> i < stop.
Proof.
  unfold py_range. rewrite Nat.sub_0_r.
  change ((stop + (1500 - 1)) / 1500) with (ceil_div stop 1500).
  intros (k & <- & Hk)%in_map_iff. apply in_seq in Hk.
  pose proof (ceil_div_bounds stop) as [_ Hlow].
  destruct stop as [|stop]; [change (ceil_div 0 1500) with 0 in Hk; lia|].
  specialize (Hlow ltac:(lia)). lia.
Qed.

Lemma reply_chunks_sizes (reply : string) :
  Forall (fun c => PyStr.len c <= 1600 /\ (PyStr.len reply <> 0 -> 0 < PyStr.len c))
         (reply_chunks reply).
Proof.
  unfold reply_chunks.
  destruct (Nat.ltb_spec 1600 (PyStr.len reply)) as [Hlong|Hshort].
  - apply Forall_forall. intros c (i & <- & Hi)%in_map_iff.
    apply py_range_bound in Hi.
    rewrite len_chunk_at.
    destruct (i + 1500 <? PyStr.len reply)%nat; lia.
  - constructor; [|constructor]. lia.
Qed.

Lemma Forall_firstn_of {A} (P : A -> Prop) (k : nat) (xs : list A) :
  Forall P xs -> Forall P (firstn k xs).
Proof.
  intros H. revert k; induction H as [|x xs Hx Hxs IH]; intros [|k]; cbn;
    constructor; auto.
Qed.

(** X1: no message handed to the channel by the relay is longer than the 1600
    characters the channel allows, on either transport, and a reply that is
    not empty never gives an empty message. *)
Theorem relay_respects_limit (net_ok : nat -> bool) (reply : string) (w : World) :
  let fits c := PyStr.len c <= 1600 /\ (PyStr.len reply <> 0 -> 0 < PyStr.len c) in
  (exists evs,
      trace (snd (twilio_relay net_ok reply w)) = trace w ++ evs
      /\ Forall fits (sent_texts evs))
  /\ (forall to, exists evs,
         trace (snd (cloud_relay net_ok reply to w)) = trace w ++ evs
         /\ Forall fits (sent_texts evs)).
Proof.
  cbv zeta. split.
  - rewrite twilio_relay_run. cbn [snd trace].
    eexists; split; [reflexivity|].
    rewrite sent_texts_twilio. apply reply_chunks_sizes.
  - intros to. rewrite cloud_relay_run. cbn [snd trace].
    eexists; split; [reflexivity|].
    rewrite sent_texts_cloud. apply Forall_firstn_of, reply_chunks_sizes.
Qed.

(** ** What a computation may do *)

Section Runs.

Variable P : Event -> bool.
Variable R : list Message -> list Message -> Prop.
Hypothesis R_refl : forall a, R a a.
Hypothesis R_trans : forall a b c, R a b -> R b c -> R a c.

Lemma runs_ret {A} (a : A) : runs P R (ret a).
Proof. intros w. exists []. cbn. rewrite app_nil_r. auto. Qed.

Lemma runs_raise {A} (e : exn) : runs P R (@raise A e).
Proof. intros w. exists []. cbn. rewrite app_nil_r. auto. Qed.

Lemma runs_lift {A} (o : outcome A) : runs P R (lift o).
Proof. intros w. exists []. cbn. rewrite app_nil_r. auto. Qed.

Lemma runs_get_chat : runs P R get_chat.
Proof. intros w. exists []. cbn. rewrite app_nil_r. auto. Qed.

Lemma runs_next_call : runs P R next_call.
Proof. intros w. exists []. cbn. rewrite app_nil_r. auto. Qed.

Lemma runs_emit (e : Event) : P e = true -> runs P R (emit e).
Proof. intros He w. exists [e]. cbn. rewrite He. auto. Qed.

Lemma runs_modify (f : Chat -> Chat) :
  (forall c, R (messages c) (messages (f c))) -> runs P R (modify_chat f).
Proof. intros Hf w. exists []. cbn. rewrite app_nil_r. auto. Qed.

Lemma runs_bind {A B} (c : M A) (k : A -> M B) :
  runs P R c -> (forall a, runs P R (k a)) -> runs P R (bind c k).
Proof.
  intros Hc Hk w. unfold bind.
  destruct (Hc w) as (evs & Ht & Hq & Hr & Hn).
  destruct (c w) as [[a|e] w1]; cbn [snd] in *.
  - destruct (Hk a w1) as (evs' & Ht' & Hq' & Hr' & Hn').
    exists (evs ++ evs'). rewrite Ht', Ht, app_assoc, forallb_app, Hq, Hq'.
    repeat split; eauto. lia.
  - exists evs. auto.
Qed.

Lemma runs_try {A} (c : M A) (h : exn -> M A) :
  runs P R c -> (forall e, runs P R (h e)) -> runs P R (try_except c h).
Proof.
  intros Hc Hh w. unfold try_except.
  destruct (Hc w) as (evs & Ht & Hq & Hr & Hn).
  destruct (c w) as [[a|e] w1]; cbn [snd] in *.
  - exists evs. auto.
  - destruct (Hh e w1) as (evs' & Ht' & Hq' & Hr' & Hn').
    exists (evs ++ evs'). rewrite Ht', Ht, app_assoc, forallb_app, Hq, Hq'.
    repeat split; eauto. lia.
Qed.

Lemma runs_for_each {A} (xs : list A) (body : A -> M unit) :
  (forall x, runs P R (body x)) -> runs P R (for_each xs body).
Proof.
  intros Hb. induction xs as [|x xs IH]; cbn [for_each].
  - apply runs_ret.
  - apply runs_bind; auto.
Qed.

(** Appending a message is allowed when [R] lets the transcript grow at its
    end. *)
Lemma runs_add_message (text : string) (r : Role) :
  P (Append (make_message text r)) = true ->
  (forall a m, R a (a ++ [m])) ->
  runs P R (add_message text r).
Proof.
  intros He Happ. unfold add_message.
  apply runs_bind; [apply runs_modify; intros c; apply Happ|].
  intros _. now apply runs_emit.
Qed.

End Runs.

Lemma kept_as_infix_refl (a : list Message) : kept_as_infix a a.
Proof. exists [], []. now rewrite app_nil_r. Qed.

Lemma kept_as_infix_trans (a b c : list Message) :
  kept_as_infix a b -> kept_as_infix b c -> kept_as_infix a c.
Proof.
  intros (p1 & q1 & ->) (p2 & q2 & ->).
  exists (p2 ++ p1), (q1 ++ q2). now rewrite <- !app_assoc.
Qed.

Lemma kept_as_infix_snoc (a : list Message) (m : Message) : kept_as_infix a (a ++ [m]).
Proof. exists [], [m]. reflexivity. Qed.

Lemma kept_as_infix_cons (a : list Message) (m : Message) : kept_as_infix a (m :: a).
Proof. exists [m], []. now rewrite app_nil_r. Qed.

Lemma kept_after_head_refl (a : list Message) : kept_after_head a a.
Proof. split; [lia | exists []; now rewrite app_nil_r]. Qed.

Lemma kept_after_head_trans (a b c : list Message) :
  kept_after_head a b -> kept_after_head b c -> kept_after_head a c.
Proof.
  intros [H1 (p & Hp)] [H2 (q & Hq)]. split; [lia|].
  exists (p ++ q). now rewrite Hq, Hp, app_assoc.
Qed.

Lemma kept_after_head_snoc (a : list Message) (m : Message) :
  kept_after_head a (a ++ [m]).
Proof.
  split; [rewrite length_app; lia|].
  destruct a as [|m0 a]; [exists []; reflexivity | exists [m]; reflexivity].
Qed.

(** Side conditions: the relation between transcripts and the allowed
    events. *)
Ltac rside :=
  solve [ exact kept_as_infix_refl | exact kept_as_infix_trans
        | exact kept_as_infix_snoc
        | exact kept_after_head_refl | exact kept_after_head_trans
        | exact kept_after_head_snoc
        | reflexivity ].

(** Walks through a computation built from the monad's operations. *)
Ltac walk_all :=
  cbv zeta;
  repeat first
    [ rside
    | apply runs_add_message
    | apply runs_bind
    | apply runs_try
    | apply runs_for_each
    | apply runs_ret
    | apply runs_raise
    | apply runs_lift
    | apply runs_get_chat
    | apply runs_next_call
    | apply runs_emit
    | apply runs_modify;
      [ ..
      | intros;
        cbn [messages set_messages set_language set_start_system_message];
        first [ apply kept_as_infix_refl | apply kept_as_infix_cons
              | apply kept_as_infix_snoc
              | apply kept_after_head_refl | apply kept_after_head_snoc ] ]
    | match goal with
      | |- runs _ _ (when ?b _) => unfold when
      | |- runs _ _ (if ?b then _ else _) => destruct b
      | |- runs _ _ (match ?o with Some _ => _ | None => _ end) => destruct o
      | |- runs _ _ (match ?o with Ok _ => _ | Raise _ => _ end) => destruct o
      | |- runs _ _ (match ?o with text_message => _ | _ => _ end) => destruct o
      | |- runs _ _ (match ?l with [] => _ | _ :: _ => _ end) => destruct l
      end
    | progress intros ].

Section WholeHandlers.

Variable net_ok : nat -> bool.
Variable chatgpt_completion : list Message -> outcome string.
Variable whisper_transcription : string -> outcome string.
Variable text_to_image : string -> outcome (option string).
Variable language_detection : string -> outcome string.
Variable verify_image_generation : string -> string * option string.
Variable check_conversation_end : string -> Chat -> bool.
Variable format : string -> list (string * string) -> outcome string.
Variable start_template : option string.

Lemma runs_cloud_handler (today : string) (data : json) :
  runs cloud_event kept_as_infix
    (process_webhook net_ok chatgpt_completion text_to_image language_detection
       verify_image_generation format start_template today data).
Proof.
  unfold process_webhook, process_webhook_body, cloud_text_turn, cloud_active_turn,
    cloud_reply_steps, cloud_relay, cloud_image_step, check_and_send_image_generation,
    cloud_resolve_system, ensure_user_language, generate_reply,
    cloud_send_message, cloud_send_image, cloud_mark_as_read.
  walk_all.
Qed.

Lemma cloud_turns_run (reqs : list (string * json)) (w : World) :
  let w' := cloud_turns net_ok chatgpt_completion text_to_image language_detection
              verify_image_generation format start_template reqs w in
  exists evs,
    trace w' = trace w ++ evs
    /\ forallb cloud_event evs = true
    /\ kept_as_infix (messages (chat w)) (messages (chat w'))
    /\ net_calls w <= net_calls w'.
Proof.
  cbv zeta. revert w; induction reqs as [|[today data] reqs IH]; intros w.
  - exists []. cbn. rewrite app_nil_r. auto using kept_as_infix_refl.
  - cbn [cloud_turns].
    destruct (runs_cloud_handler today data w) as (evs & Ht & Hp & Hr & Hn).
    destruct (IH (snd (process_webhook net_ok chatgpt_completion text_to_image
                         language_detection verify_image_generation format
                         start_template today data w)))
      as (evs' & Ht' & Hp' & Hr' & Hn').
    exists (evs ++ evs'). rewrite Ht', Ht, app_assoc, forallb_app, Hp, Hp'.
    split; [reflexivity|]. split; [reflexivity|].
    split; [eapply kept_as_infix_trans; eauto | lia].
Qed.

Lemma runs_setitem0 (m : Message) : runs twilio_event kept_after_head (setitem0 m).
Proof.
  intros w. unfold setitem0, bind, get_chat, raise, modify_chat, emit.
  destruct (messages (chat w)) as [|m0 rest] eqn:E; cbn.
  - exists []. rewrite app_nil_r, ?E.
    split; [reflexivity|]. split; [reflexivity|]. split; [apply kept_after_head_refl | lia].
  - exists [SetSystem m]. rewrite ?E.
    split; [reflexivity|]. split; [reflexivity|]. split; [|lia].
    split; [cbn; lia|]. exists []. cbn. now rewrite app_nil_r.
Qed.

Lemma runs_twilio_handler (today : string) (req : TwilioRequest) :
  runs twilio_event kept_after_head
    (reply_to_whatsapp_message net_ok chatgpt_completion whisper_transcription
       text_to_image language_detection verify_image_generation
       check_conversation_end format start_template today req).
Proof.
  unfold reply_to_whatsapp_message.
  apply runs_bind; try rside.
  { unfold twilio_resolve_system.
    destruct start_template as [template|]; [|walk_all].
    destruct (PyStr.truthy (Some template)); [|walk_all].
    apply runs_bind; try rside; [walk_all|]. intros rendered.
    apply runs_bind; try rside; [walk_all | intros; apply runs_setitem0]. }
  intros _.
  unfold verify_and_process_media, message_empty_or_goodbye, twilio_active_turn,
    twilio_reply_steps, twilio_relay, twilio_image_step, check_and_send_image_generation,
    ensure_user_language, generate_reply, save,
    twilio_send_message, twilio_send_image.
  walk_all.
Qed.

Lemma twilio_turns_run (reqs : list (string * TwilioRequest)) (w : World) :
  let w' := twilio_turns net_ok chatgpt_completion whisper_transcription text_to_image
              language_detection verify_image_generation check_conversation_end
              format start_template reqs w in
  exists evs,
    trace w' = trace w ++ evs
    /\ forallb twilio_event evs = true
    /\ kept_after_head (messages (chat w)) (messages (chat w'))
    /\ net_calls w <= net_calls w'.
Proof.
  cbv zeta. revert w; induction reqs as [|[today req] reqs IH]; intros w.
  - exists []. cbn. rewrite app_nil_r. auto using kept_after_head_refl.
  - cbn [twilio_turns].
    destruct (runs_twilio_handler today req w) as (evs & Ht & Hp & Hr & Hn).
    destruct (IH (snd (reply_to_whatsapp_message net_ok chatgpt_completion
                         whisper_transcription text_to_image language_detection
                         verify_image_generation check_conversation_end format
                         start_template today req w)))
      as (evs' & Ht' & Hp' & Hr' & Hn').
    exists (evs ++ evs'). rewrite Ht', Ht, app_assoc, forallb_app, Hp, Hp'.
    split; [reflexivity|]. split; [reflexivity|].
    split; [eapply kept_after_head_trans; eauto | lia].
Qed.

End WholeHandlers.

(** X2: over any sequence of webhook calls whose text messages carry string
    fields, whatever each of them answers, the Cloud handler only adds to
    what has happened: it never saves the conversation, never calls the
    transcription service, never puts a fallback text in place of a refused
    message and never overwrites the first message; the transcript it finds is
    still in the transcript it leaves, in one piece and in order. *)
Theorem cloud_history_is_kept
    (net_ok : nat -> bool)
    (chatgpt_completion : list Message -> outcome string)
    (text_to_image : string -> outcome (option string))
    (language_detection : string -> outcome string)
    (verify_image_generation : string -> string * option string)
    (format : string -> list (string * string) -> outcome string)
    (start_template : option string)
    (reqs : list (string * json)) (w : World) :
  forallb (fun r => text_fields_are_strings (snd r)) reqs = true ->
  let w' := cloud_turns net_ok chatgpt_completion text_to_image language_detection
              verify_image_generation format start_template reqs w in
  exists evs,
    trace w' = trace w ++ evs
    /\ forallb cloud_event evs = true
    /\ kept_as_infix (messages (chat w)) (messages (chat w')).
Proof.
  intros _. cbv zeta.
  destruct (cloud_turns_run net_ok chatgpt_completion text_to_image language_detection
              verify_image_generation format start_template reqs w)
    as (evs & Ht & Hp & Hk & _).
  exists evs. auto.
Qed.

(** Two text messages in a row, the second one refused by the channel. *)
Lemma cloud_history_witness :
  let w' := cloud_turns (refuse_at 3) (demo_completion "Hello!") demo_text_to_image
              demo_language demo_no_directive demo_format (Some demo_template)
              [("2024-05-01", demo_webhook "Hi"); ("2024-05-02", demo_webhook "And then?")]
              (quiet_world demo_chat) in
  exists evs,
    trace w' = [] ++ evs
    /\ forallb cloud_event evs = true
    /\ kept_as_infix (messages demo_chat) (messages (chat w')).
Proof.
  exact (cloud_history_is_kept (refuse_at 3) (demo_completion "Hello!")
           demo_text_to_image demo_language demo_no_directive demo_format
           (Some demo_template)
           [("2024-05-01", demo_webhook "Hi"); ("2024-05-02", demo_webhook "And then?")]
           (quiet_world demo_chat) eq_refl).
Defined.

(** X3: over any sequence of requests, whether they return or raise, the
    Twilio handler never loses a message and never touches a message after
    the first one: the transcript only grows at its end, and only its first
    message is rewritten.  It sends no read receipt and inserts nothing in
    front of the transcript. *)
Theorem twilio_history_is_kept
    (net_ok : nat -> bool)
    (chatgpt_completion : list Message -> outcome string)
    (whisper_transcription : string -> outcome string)
    (text_to_image : string -> outcome (option string))
    (language_detection : string -> outcome string)
    (verify_image_generation : string -> string * option string)
    (check_conversation_end : string -> Chat -> bool)
    (format : string -> list (string * string) -> outcome string)
    (start_template : option string)
    (reqs : list (string * TwilioRequest)) (w : World) :
  let w' := twilio_turns net_ok chatgpt_completion whisper_transcription text_to_image
              language_detection verify_image_generation check_conversation_end
              format start_template reqs w in
  exists evs,
    trace w' = trace w ++ evs
    /\ forallb twilio_event evs = true
    /\ kept_after_head (messages (chat w)) (messages (chat w'))
    /\ net_calls w <= net_calls w'.
Proof. apply twilio_turns_run. Qed.

(** ** The read receipt *)

(** X5: when the channel refuses the read receipt of a text message, the Cloud
    handler answers with the error status and has done nothing else: nothing
    is sent, the conversation is as it was. *)
Theorem refused_read_receipt_stops_the_turn
    (net_ok : nat -> bool)
    (chatgpt_completion : list Message -> outcome string)
    (text_to_image : string -> outcome (option string))
    (language_detection : string -> outcome string)
    (verify_image_generation : string -> string * option string)
    (format : string -> list (string * string) -> outcome string)
    (start_template : option string) (today : string)
    (data : json) (md : Parsed) (id : string) (w : World) :
  parse_whatsapp_message data = Ok (Some md) ->
  eq_str (p_type md) "text" = true ->
  p_message_id md = JStr id ->
  net_ok (net_calls w) = false ->
  process_webhook net_ok chatgpt_completion text_to_image language_detection
    verify_image_generation format start_template today data w
  = (Ok error_response,
     mkWorld (chat w) (trace w ++ [MarkRead id false]) (S (net_calls w))).
Proof.
  intros Hp Hty Hid Hnet.
  unfold process_webhook, process_webhook_body, try_except, cloud_text_turn,
    cloud_mark_as_read.
  unfold bind at 1. unfold lift at 1. rewrite Hp, Hty. cbn [negb].
  rewrite Hid. run_monad. rewrite Hnet. reflexivity.
Qed.

Lemma refused_read_receipt_witness :
  process_webhook (refuse_at 0) (demo_completion "Hello!") demo_text_to_image
    demo_language demo_no_directive demo_format (Some demo_template) "2024-05-01"
    (demo_webhook "Hi") (quiet_world demo_chat)
  = (Ok error_response, mkWorld demo_chat [MarkRead "wamid.1" false] 1).
Proof.
  exact (refused_read_receipt_stops_the_turn (refuse_at 0) (demo_completion "Hello!")
           demo_text_to_image demo_language demo_no_directive demo_format
           (Some demo_template) "2024-05-01" (demo_webhook "Hi")
           (mkParsed (JStr "34600000000") (JStr "Ada") (JStr "wamid.1")
              (JStr "1700000000") (JStr "text") (JStr "Hi") JNull JNull)
           "wamid.1" (quiet_world demo_chat) eq_refl eq_refl eq_refl eq_refl).
Defined.

(** ** What the parser reads *)

(** X6: from a notification that carries messages, the parser reads the first
    message and the first contact and nothing else: the sender, the message
    id, the timestamp and the display name come back as they were sent, the
    text is the body of the message, and the image and audio fields are
    [None]; further messages and contacts of the same notification are
    dropped. *)
Theorem parse_reads_the_first_message
    (from id timestamp body display_name : string)
    (more_messages more_contacts : list json) (others : list (string * json)) :
  parse_whatsapp_message
    (notification
       (("messages", JArr (text_message_object from id timestamp body :: more_messages))
        :: ("contacts", JArr (contact_object display_name :: more_contacts))
        :: others))
  = Ok (Some (mkParsed (JStr from) (JStr display_name) (JStr id) (JStr timestamp)
                (JStr "text") (JStr body) JNull JNull)).
Proof. reflexivity. Qed.

Section Acknowledged.

Variable net_ok : nat -> bool.
Variable chatgpt_completion : list Message -> outcome string.
Variable text_to_image : string -> outcome (option string).
Variable language_detection : string -> outcome string.
Variable verify_image_generation : string -> string * option string.
Variable format : string -> list (string * string) -> outcome string.
Variable start_template : option string.

Lemma parse_notification (fields : list (string * json)) :
  parse_body (notification fields)
  = match assoc "messages" fields with
    | None => Ok None
    | Some m0 =>
        message <~ getitem0 m0 ;;
        k0 <~ getitem (JObj fields) "contacts" ;;
        contact <~ getitem0 k0 ;;
        from <~ getitem message "from" ;;
        profile <~ getitem contact "profile" ;;
        nm <~ getitem profile "name" ;;
        id <~ getitem message "id" ;;
        ts <~ getitem message "timestamp" ;;
        ty <~ getitem message "type" ;;
        ty1 <~ getitem message "type" ;;
        text <~ (if eq_str ty1 "text"
                 then t <~ dict_get message "text" (JObj []) ;;
                      dict_get t "body" (JStr "")
                 else Ok JNull) ;;
        ty2 <~ getitem message "type" ;;
        image <~ (if eq_str ty2 "image" then dict_get message "image" JNull else Ok JNull) ;;
        ty3 <~ getitem message "type" ;;
        audio <~ (if eq_str ty3 "audio" then dict_get message "audio" JNull else Ok JNull) ;;
        Ok (Some (mkParsed from nm id ts ty text image audio))
    end.
Proof.
  unfold parse_body, notification. cbn [getitem assoc String.eqb Ascii.eqb Bool.eqb
    getitem0 obind contains].
  destruct (assoc "messages" fields); reflexivity.
Qed.

End Acknowledged.

(** X7: a notification without messages (a delivery status, for instance),
    with an empty list of messages, or with messages but no contacts, is
    acknowledged with the ok status; nothing is sent and the conversation is
    not touched. *)
Theorem notification_without_message_is_acknowledged
    (net_ok : nat -> bool)
    (chatgpt_completion : list Message -> outcome string)
    (text_to_image : string -> outcome (option string))
    (language_detection : string -> outcome string)
    (verify_image_generation : string -> string * option string)
    (format : string -> list (string * string) -> outcome string)
    (start_template : option string) (today : string)
    (fields : list (string * json)) (w : World) :
  assoc "messages" fields = None
  \/ assoc "messages" fields = Some (JArr [])
  \/ ((exists m rest, assoc "messages" fields = Some (JArr (m :: rest)))
      /\ assoc "contacts" fields = None) ->
  parse_whatsapp_message (notification fields) = Ok None
  /\ process_webhook net_ok chatgpt_completion text_to_image language_detection
       verify_image_generation format start_template today (notification fields) w
     = (Ok ok_response, w).
Proof.
  intros H.
  assert (parse_whatsapp_message (notification fields) = Ok None) as Hp.
  { unfold parse_whatsapp_message. rewrite parse_notification.
    destruct H as [-> | [-> | [(m & rest & ->) Hc]]]; try reflexivity.
    cbn [getitem0 obind getitem]. rewrite Hc. reflexivity. }
  split; [exact Hp|].
  now apply unparsed_payload_acknowledged.
Qed.

Lemma notification_without_message_witness :
  process_webhook always_accepted (demo_completion "Hello!") demo_text_to_image
    demo_language demo_no_directive demo_format (Some demo_template) "2024-05-01"
    (notification [("statuses", JArr [JObj [("status", JStr "delivered")]])])
    (quiet_world demo_chat)
  = (Ok ok_response, quiet_world demo_chat).
Proof.
  apply (notification_without_message_is_acknowledged always_accepted
           (demo_completion "Hello!") demo_text_to_image demo_language
           demo_no_directive demo_format (Some demo_template) "2024-05-01"
           [("statuses", JArr [JObj [("status", JStr "delivered")]])]
           (quiet_world demo_chat)).
  left. reflexivity.
Defined.

(** Inverts a successful run of the parser, one subscript at a time. *)
Ltac invert_parse H :=
  unfold parse_whatsapp_message, parse_body, obind in H;
  repeat match type of H with
         | context [match ?x with _ => _ end] =>
             lazymatch x with
             | context [match _ with _ => _ end] => fail
             | _ => destruct x eqn:?; try discriminate
             end
         end.

Lemma eq_str_true (v : json) (s : string) : eq_str v s = true -> v = JStr s.
Proof. destruct v; cbn; try discriminate. now intros ->%String.eqb_eq. Qed.

(** X8: in every dict the parser returns, the text is [None] unless the type
    of the message is ["text"], the image is [None] unless it is ["image"] and
    the audio is [None] unless it is ["audio"]; so at most one of the three is
    there. *)
Theorem parsed_payload_matches_its_type (data : json) (md : Parsed) :
  parse_whatsapp_message data = Ok (Some md) ->
  (eq_str (p_type md) "text" = false -> p_text md = JNull)
  /\ (eq_str (p_type md) "image" = false -> p_image md = JNull)
  /\ (eq_str (p_type md) "audio" = false -> p_audio md = JNull)
  /\ (p_text md = JNull /\ p_image md = JNull
      \/ p_text md = JNull /\ p_audio md = JNull
      \/ p_image md = JNull /\ p_audio md = JNull).
Proof.
  intros H. invert_parse H; injection H as <-; cbn [p_type p_text p_image p_audio];
    try match goal with
        | H1 : eq_str ?t _ = true |- _ => apply eq_str_true in H1; subst t
        end;
    cbn in *; try discriminate;
    repeat split; intros; try discriminate; auto.
Qed.

Lemma parsed_payload_witness :
  let md := mkParsed (JStr "34600000000") (JStr "Ada") (JStr "wamid.1")
              (JStr "1700000000") (JStr "text") (JStr "Hi") JNull JNull in
  p_image md = JNull /\ p_audio md = JNull.
Proof.
  cbv zeta.
  pose proof (parsed_payload_matches_its_type (demo_webhook "Hi")
                (mkParsed (JStr "34600000000") (JStr "Ada") (JStr "wamid.1")
                   (JStr "1700000000") (JStr "text") (JStr "Hi") JNull JNull)
                eq_refl) as (_ & Hi & Ha & _).
  split; [apply Hi | apply Ha]; reflexivity.
Defined.

(** X9: when the completion service answers (and the language detection, on
    a first turn), an active turn of the Twilio handler answers ok; it has
    added to the transcript the user message, the cleaned reply as assistant
    message and, for a honoured directive, its record, in this order and
    nothing else; the reply went out as its chunks; and the save is the last
    thing the turn does. *)
Theorem twilio_turn_completes
    (net_ok : nat -> bool)
    (chatgpt_completion : list Message -> outcome string)
    (text_to_image : string -> outcome (option string))
    (language_detection : string -> outcome string)
    (verify_image_generation : string -> string * option string)
    (text raw : string) (w : World) :
  chatgpt_completion (messages (chat w) ++ [make_message text user]) = Ok raw ->
  bootstrap_result language_detection (List.length (messages (chat w)) =? 1)%nat text
  = Ok tt ->
  let r := verify_image_generation (PyStr.strip raw) in
  exists w' evs more,
    twilio_active_turn net_ok chatgpt_completion text_to_image language_detection
      verify_image_generation (Some text) w
    = (Ok ok_response, w')
    /\ messages (chat w')
       = messages (chat w)
           ++ make_message text user
           :: make_message (fst r) assistant :: audit_of (snd r)
    /\ trace w' = trace w ++ evs ++ [Save]
    /\ sent_texts evs = reply_chunks (fst r) ++ more
    /\ count is_generate evs <= 1.
Proof.
  intros Hc Hb. cbv zeta. unfold twilio_active_turn. cbn [the].
  destruct (active_turn_head_ok chatgpt_completion language_detection
              verify_image_generation text
              (fun r => twilio_reply_steps net_ok text_to_image (fst r) (snd r)) w Hb)
    as (c1 & Hc1 & _ & ->).
  cbv zeta. rewrite Hc.
  match goal with
  | |- context [twilio_reply_steps _ _ ?reply ?img ?w1] =>
      destruct (twilio_reply_steps_run net_ok text_to_image reply img w1)
        as (w' & sends & Hrun & Hm & Ht & Hs)
  end.
  cbn [chat trace net_calls] in Hm, Ht. rewrite Hc1 in Hm.
  set (reply := fst (verify_image_generation (PyStr.strip raw))) in *.
  set (img := snd (verify_image_generation (PyStr.strip raw))) in *.
  set (boot := if (List.length (messages (chat w)) =? 1)%nat
               then [DetectLanguage text] else []) in *.
  set (tail := match honored img with
               | Some p => Append (make_message (img_audit p) system)
                             :: GenerateImage p :: sends
               | None => []
               end) in *.
  set (head := boot ++ [Append (make_message text user);
                        Completion (messages (chat w) ++ [make_message text user])]) in *.
  assert (sent_texts head = [] /\ count is_generate head = 0) as [Hh1 Hh2]
    by (subst head boot; destruct (_ =? _)%nat; split; reflexivity).
  assert (count is_generate tail <= 1 /\ exists more, sent_texts tail = more)
    as [Ht1 (more & Ht2)].
  { subst tail. destruct (honored img); [|split; [cbn; lia | exists []; reflexivity]].
    split; [|eexists; reflexivity].
    apply sends_no_generate in Hs. unfold count in *. cbn. rewrite Hs. lia. }
  match type of Ht with
  | context [twilio_events ?a ?b ?c ?d ?e] =>
      exists w', (head ++ twilio_events a b c d e
                    ++ Append (make_message reply assistant) :: tail), more
  end.
  split; [exact Hrun|]. split; [|split; [|split]].
  - rewrite Hm, <- app_assoc. reflexivity.
  - rewrite Ht, <- !app_assoc. reflexivity.
  - rewrite !sent_texts_app, Hh1, sent_texts_twilio. cbn [app sent_texts].
    now rewrite Ht2.
  - rewrite !count_app, Hh2.
    rewrite (sends_no_generate _ (twilio_events_are_sends _ _ _ _ _)).
    change (count is_generate (Append (make_message reply assistant) :: tail))
      with (count is_generate tail).
    lia.
Qed.

Lemma twilio_turn_completes_witness :
  exists w' evs more,
    twilio_active_turn always_accepted (demo_completion "  Hello!  ") demo_text_to_image
      demo_language demo_no_directive (Some "Hi") (quiet_world demo_chat)
    = (Ok ok_response, w')
    /\ messages (chat w')
       = messages demo_chat
           ++ make_message "Hi" user
           :: make_message (fst (demo_no_directive (PyStr.strip "  Hello!  "))) assistant
           :: audit_of (snd (demo_no_directive (PyStr.strip "  Hello!  ")))
    /\ trace w' = [] ++ evs ++ [Save]
    /\ sent_texts evs
       = reply_chunks (fst (demo_no_directive (PyStr.strip "  Hello!  "))) ++ more
    /\ count is_generate evs <= 1.
Proof.
  exact (twilio_turn_completes always_accepted (demo_completion "  Hello!  ")
           demo_text_to_image demo_language demo_no_directive "Hi" "  Hello!  "
           (quiet_world demo_chat) eq_refl eq_refl).
Defined.

(** X10: when the completion service fails (the language detection of a
    first turn having succeeded), on either transport, the active turn raises
    that failure with the user message already in the transcript: there is no
    rollback, nothing has been sent, no assistant message is appended and
    nothing is saved. *)
Theorem completion_failure_keeps_the_user_message
    (net_ok : nat -> bool)
    (chatgpt_completion : list Message -> outcome string)
    (text_to_image : string -> outcome (option string))
    (language_detection : string -> outcome string)
    (verify_image_generation : string -> string * option string)
    (text : string) (e : exn) (w : World) :
  chatgpt_completion (messages (chat w) ++ [make_message text user]) = Raise e ->
  bootstrap_result language_detection (List.length (messages (chat w)) =? 1)%nat text
  = Ok tt ->
  exists w1 evs,
    twilio_active_turn net_ok chatgpt_completion text_to_image language_detection
      verify_image_generation (Some text) w = (Raise e, w1)
    /\ (forall from,
           cloud_active_turn net_ok chatgpt_completion text_to_image language_detection
             verify_image_generation text from w = (Raise e, w1))
    /\ messages (chat w1) = messages (chat w) ++ [make_message text user]
    /\ trace w1 = trace w ++ evs
    /\ sent_texts evs = []
    /\ filter is_record evs = [Append (make_message text user)].
Proof.
  intros Hc Hb. unfold twilio_active_turn, cloud_active_turn. cbn [the].
  unfold bootstrap_result in Hb.
  destruct (List.length (messages (chat w)) =? 1)%nat eqn:E;
    [destruct (language_detection text) as [lang|e0] eqn:El; [|discriminate]|];
    (eexists; eexists; split;
     [rewrite active_turn_head; cbv zeta; rewrite Hc, E, ?El; reflexivity|];
     split;
     [intros from; rewrite active_turn_head; cbv zeta; rewrite Hc, E, ?El; reflexivity|]);
    cbn [chat trace messages set_messages]; repeat split.
Qed.

Lemma completion_failure_witness :
  exists w1 evs,
    twilio_active_turn always_accepted (fun _ => Raise ServiceError) demo_text_to_image
      demo_language demo_no_directive (Some "Hi") (quiet_world demo_chat)
    = (Raise ServiceError, w1)
    /\ (forall from,
           cloud_active_turn always_accepted (fun _ => Raise ServiceError)
             demo_text_to_image demo_language demo_no_directive "Hi" from
             (quiet_world demo_chat)
           = (Raise ServiceError, w1))
    /\ messages (chat w1) = messages demo_chat ++ [make_message "Hi" user]
    /\ trace w1 = [] ++ evs
    /\ sent_texts evs = []
    /\ filter is_record evs = [Append (make_message "Hi" user)].
Proof.
  exact (completion_failure_keeps_the_user_message always_accepted
           (fun _ => Raise ServiceError) demo_text_to_image demo_language
           demo_no_directive "Hi" ServiceError (quiet_world demo_chat) eq_refl eq_refl).
Defined.

(** ** No termination check on the Cloud transport *)

Lemma cloud_resolve_run
    (format : string -> list (string * string) -> outcome string)
    (start_template : option string) (today sender_name : string) (w : World) :
  renders format start_template today sender_name = true ->
  exists c' pre,
    cloud_resolve_system format start_template today sender_name w
    = (Ok tt, mkWorld c' (trace w ++ pre) (net_calls w))
    /\ sent_texts pre = []
    /\ kept_as_infix (messages (chat w)) (messages c').
Proof.
  assert (exists c' pre,
             (Ok tt, w) = (Ok tt, mkWorld c' (trace w ++ pre) (net_calls w))
             /\ sent_texts pre = []
             /\ kept_as_infix (messages (chat w)) (messages c')) as Hsame.
  { exists (chat w), []. rewrite app_nil_r, world_eta.
    split; [reflexivity|]. split; [reflexivity | apply kept_as_infix_refl]. }
  unfold cloud_resolve_system, renders.
  destruct start_template as [template|]; [|intros _; exact Hsame].
  destruct (PyStr.truthy (Some template)); [|intros _; exact Hsame].
  clear Hsame. unfold bind at 1. unfold lift.
  destruct (format template _) as [rendered|e]; [intros _ | discriminate].
  run_monad.
  destruct (messages (chat w)) as [|m0 rest] eqn:E;
    [|destruct (negb (Role_eqb (role m0) system))]; run_monad.
  - eexists. eexists. split; [reflexivity|]. split; [reflexivity|].
    cbn [messages set_messages]. rewrite ?E. apply kept_as_infix_cons.
  - eexists. eexists. split; [reflexivity|]. split; [reflexivity|].
    cbn [messages set_messages]. rewrite ?E. apply kept_as_infix_cons.
  - eexists. exists []. rewrite app_nil_r. split; [reflexivity|]. split; [reflexivity|].
    cbn [messages set_start_system_message]. rewrite E. apply kept_as_infix_refl.
Qed.

Lemma cloud_handler_world
    (net_ok : nat -> bool)
    (chatgpt_completion : list Message -> outcome string)
    (text_to_image : string -> outcome (option string))
    (language_detection : string -> outcome string)
    (verify_image_generation : string -> string * option string)
    (format : string -> list (string * string) -> outcome string)
    (start_template : option string) (today : string) (data : json) (w : World) :
  snd (process_webhook net_ok chatgpt_completion text_to_image language_detection
         verify_image_generation format start_template today data w)
  = snd (process_webhook_body net_ok chatgpt_completion text_to_image
           language_detection verify_image_generation format start_template
           today data w).
Proof.
  rewrite cloud_handler_catches. cbv zeta.
  destruct (fst (process_webhook_body _ _ _ _ _ _ _ _ _ _)); reflexivity.
Qed.

(** X11: the Cloud handler has no termination check.  For every text message
    whose read receipt the channel accepts and for which the system prompt
    renders and the language is detected, whatever its text (empty and blank
    texts included), the text is appended to the transcript as a user message
    and the completion service is asked for a reply to it, before anything is
    sent to the user. *)
Theorem cloud_takes_any_text
    (net_ok : nat -> bool)
    (chatgpt_completion : list Message -> outcome string)
    (text_to_image : string -> outcome (option string))
    (language_detection : string -> outcome string)
    (verify_image_generation : string -> string * option string)
    (format : string -> list (string * string) -> outcome string)
    (start_template : option string) (today : string)
    (from display_name id timestamp body lang : string) (w : World) :
  net_ok (net_calls w) = true ->
  renders format start_template today display_name = true ->
  language_detection body = Ok lang ->
  exists pre msgs rest,
    trace (snd (process_webhook net_ok chatgpt_completion text_to_image
                  language_detection verify_image_generation format start_template
                  today (text_webhook from display_name id timestamp body) w))
    = trace w
        ++ MarkRead id true
        :: pre
        ++ Append (make_message body user)
        :: Completion (msgs ++ [make_message body user])
        :: rest
    /\ sent_texts pre = []
    /\ kept_as_infix (messages (chat w)) msgs.
Proof.
  intros Hnet Hrender Hlang. rewrite cloud_handler_world, cloud_text_webhook_body.
  unfold cloud_intake, cloud_mark_as_read.
  unfold bind at 1. unfold bind at 1. unfold bind at 1. unfold next_call at 1.
  unfold bind at 1. unfold emit at 1. cbn [chat trace net_calls].
  rewrite Hnet. unfold ret at 1.
  match goal with
  | |- context [cloud_resolve_system ?f ?t ?d ?n ?w0] =>
      destruct (cloud_resolve_run f t d n w0 Hrender) as (c' & pre & -> & Hpre & Hkept)
  end.
  unfold cloud_active_turn.
  match goal with
  | |- context [bind get_chat _ ?w1] =>
      destruct (active_turn_head_ok chatgpt_completion language_detection
                  verify_image_generation body
                  (fun r => cloud_reply_steps net_ok text_to_image (fst r) (snd r) from)
                  w1)
        as (c1 & Hc1 & _ & ->)
  end.
  { unfold bootstrap_result. rewrite Hlang. now destruct (_ =? _)%nat. }
  cbv zeta. cbn [chat trace net_calls] in *.
  set (boot := if (List.length (messages c') =? 1)%nat
               then [DetectLanguage body] else []).
  assert (sent_texts (pre ++ boot) = []) as Hsent
    by (rewrite sent_texts_app, Hpre; subst boot; destruct (_ =? _)%nat; reflexivity).
  destruct (chatgpt_completion (messages c' ++ [make_message body user])) as [raw|e].
  - match goal with
    | |- context [cloud_reply_steps _ _ ?r ?i ?f ?w1] =>
        destruct (steps_cloud_reply_steps net_ok text_to_image r i f w1)
          as (rest & Ht & _ & _)
    end.
    rewrite Ht. cbn [trace].
    exists (pre ++ boot), (messages c'), rest.
    split; [|split; [exact Hsent | exact Hkept]].
    rewrite <- !app_assoc. reflexivity.
  - cbn [snd trace].
    exists (pre ++ boot), (messages c'), [].
    split; [|split; [exact Hsent | exact Hkept]].
    rewrite <- !app_assoc. reflexivity.
Qed.

Lemma cloud_takes_any_text_witness :
  exists pre msgs rest,
    trace (snd (process_webhook always_accepted (demo_completion "Hello!")
                  demo_text_to_image demo_language demo_no_directive demo_format
                  (Some demo_template) "2024-05-01"
                  (text_webhook "34600000000" "Ada" "wamid.3" "1700000002" "   ")
                  (quiet_world demo_chat)))
    = [] ++ MarkRead "wamid.3" true
        :: pre
        ++ Append (make_message "   " user)
        :: Completion (msgs ++ [make_message "   " user])
        :: rest
    /\ sent_texts pre = []
    /\ kept_as_infix (messages demo_chat) msgs.
Proof.
  exact (cloud_takes_any_text always_accepted (demo_completion "Hello!")
           demo_text_to_image demo_language demo_no_directive demo_format
           (Some demo_template) "2024-05-01"
           "34600000000" "Ada" "wamid.3" "1700000002" "   " "english"
           (quiet_world demo_chat) eq_refl eq_refl eq_refl).
Defined.

(** ** Keyword arguments *)

Lemma assoc_remove_key_same (k : string) (kw : kwargs) :
  assoc k (remove_key k kw) = None.
Proof.
  induction kw as [|[k' v] kw IH]; [reflexivity|].
  unfold remove_key in *. cbn [filter fst negb].
  destruct (String.eqb k k') eqn:E; cbn [negb]; [exact IH|].
  cbn [assoc]. now rewrite E.
Qed.

Lemma assoc_remove_key_other (k k' : string) (kw : kwargs) :
  k <> k' -> assoc k (remove_key k' kw) = assoc k kw.
Proof.
  intros Hk. induction kw as [|[k0 v] kw IH]; [reflexivity|].
  unfold remove_key in *. cbn [filter fst assoc].
  destruct (String.eqb k' k0) eqn:E; cbn [negb assoc].
  - apply String.eqb_eq in E. subst k0.
    destruct (String.eqb k k') eqn:E'; [apply String.eqb_eq in E'; contradiction | exact IH].
  - now rewrite IH.
Qed.

Lemma has_key_remove_key_same (k : string) (kw : kwargs) :
  has_key k (remove_key k kw) = false.
Proof. unfold has_key. now rewrite assoc_remove_key_same. Qed.

Lemma assoc_set_key (k k' : string) (v : json) (kw : kwargs) :
  assoc k (set_key k' v kw) = if String.eqb k k' then Some v else assoc k kw.
Proof.
  induction kw as [|[k0 v0] kw IH]; cbn [set_key assoc].
  - reflexivity.
  - destruct (String.eqb k' k0) eqn:E0; cbn [assoc].
    + apply String.eqb_eq in E0. subst k0. destruct (String.eqb k k'); reflexivity.
    + rewrite IH. destruct (String.eqb k k0) eqn:E1; [|reflexivity].
      apply String.eqb_eq in E1. subst k0.
      destruct (String.eqb k k') eqn:E2; [|reflexivity].
      apply String.eqb_eq in E2. subst k'. rewrite String.eqb_refl in E0. discriminate.
Qed.

Lemma assoc_update_absent (k : string) (d other : kwargs) :
  assoc k other = None -> assoc k (update d other) = assoc k d.
Proof.
  unfold update. revert d; induction other as [|[k0 v0] other IH]; intros d H;
    [reflexivity|].
  cbn [assoc] in H. destruct (String.eqb k k0) eqn:E; [discriminate|].
  cbn [fold_left fst snd]. rewrite (IH _ H), assoc_set_key, E. reflexivity.
Qed.


Lemma assoc_remove_key (k k' : string) (kw : kwargs) :
  assoc k (remove_key k' kw) = if String.eqb k k' then None else assoc k kw.
Proof.
  destruct (String.eqb_spec k k') as [->|H];
    [apply assoc_remove_key_same | now apply assoc_remove_key_other].
Qed.

Lemma remove_key_absent (k : string) (kw : kwargs) :
  has_key k kw = false -> remove_key k kw = kw.
Proof.
  unfold has_key. induction kw as [|[k' v] kw IH]; [reflexivity|].
  cbn [assoc]. unfold remove_key in *. cbn [filter fst].
  destruct (String.eqb k k'); [discriminate|]. cbn [negb].
  intros H. now rewrite (IH H).
Qed.

Lemma has_key_remove_key (k k' : string) (kw : kwargs) :
  has_key k (remove_key k' kw) = negb (String.eqb k k') && has_key k kw.
Proof. unfold has_key. rewrite assoc_remove_key. now destruct (String.eqb k k'). Qed.

(** ** Which model is asked *)

Lemma chat_completion_call_facts
    (USE_GROQ : option string) (messages : list Message) (given : kwargs) :
  let call := Services.chat_completion_call USE_GROQ messages given in
  let wanted :=
    match assoc "engine" given with
    | Some e => e
    | None =>
        match assoc "model" given with Some m => m | None => Services.default_model end
    end in
  Services.api_messages call = messages
  /\ Services.provider call
     = (if Services.use_groq USE_GROQ then Services.Groq else Services.OpenAI)
  /\ Services.api_model call
     = (if Services.use_groq USE_GROQ && Services.is_openai_default wanted
        then Services.llama_model else wanted)
  /\ (forall k,
         assoc k (Services.api_kwargs call)
         = if String.eqb k "model" || String.eqb k "engine" then None
           else assoc k given).
Proof.
  cbv zeta. unfold Services.chat_completion_call.
  set (kw := remove_key "model" given).
  assert ((if has_key "engine" kw then remove_key "engine" kw else kw)
          = remove_key "engine" kw) as ->.
  { destruct (has_key "engine" kw) eqn:E; [reflexivity|].
    symmetry. now apply remove_key_absent. }
  assert (assoc "engine" kw = assoc "engine" given) as ->
    by (subst kw; now rewrite assoc_remove_key).
  assert (forall k,
            assoc k (remove_key "engine" kw)
            = if String.eqb k "model" || String.eqb k "engine" then None
              else assoc k given) as Hall.
  { intros k. subst kw. rewrite !assoc_remove_key.
    destruct (String.eqb k "engine"), (String.eqb k "model"); reflexivity. }
  destruct (Services.use_groq USE_GROQ);
    cbn [Services.api_messages Services.api_kwargs Services.provider
         Services.api_model andb];
    repeat split; auto.
Qed.

(** X12: the request [chat_completion] makes (none when [messages] is given a
    second time, as a keyword).  It carries the messages as they
    are and every keyword argument but [model] and [engine]; the model asked
    for is the [engine] keyword argument when there is one, else the [model]
    argument, else ["gpt-4o-mini"].  Groq is used exactly when [USE_GROQ] is
    set to ["true"] up to case; the request then goes to Groq, with
    ["llama-3.3-70b-versatile"] in place of one of the three OpenAI defaults
    and with any other model kept, and otherwise to OpenAI with the model
    asked for. *)
Theorem chat_completion_picks_the_model
    (USE_GROQ : option string)
    (create : Services.ApiCall -> Services.result (option string))
    (messages : list Message) (given : kwargs) :
  let call := Services.chat_completion_call USE_GROQ messages given in
  let wanted :=
    match assoc "engine" given with
    | Some e => e
    | None =>
        match assoc "model" given with Some m => m | None => JStr "gpt-4o-mini" end
    end in
  Services.chat_completion USE_GROQ create messages given
  = (if has_key "messages" given then Services.Throw Services.DuplicateArgument
     else create call)
  /\ Services.api_messages call = messages
  /\ (forall k,
         assoc k (Services.api_kwargs call)
         = if String.eqb k "model" || String.eqb k "engine" then None
           else assoc k given)
  /\ (Services.use_groq USE_GROQ = true
      <-> exists v, USE_GROQ = Some v /\ PyStrMore.lower v = "true")
  /\ (Services.use_groq USE_GROQ = false ->
      Services.provider call = Services.OpenAI /\ Services.api_model call = wanted)
  /\ (Services.use_groq USE_GROQ = true ->
      Services.provider call = Services.Groq
      /\ (Services.is_openai_default wanted = true ->
          Services.api_model call = JStr "llama-3.3-70b-versatile")
      /\ (Services.is_openai_default wanted = false -> Services.api_model call = wanted)).
Proof.
  cbv zeta.
  destruct (chat_completion_call_facts USE_GROQ messages given) as (F1 & F2 & F3 & F4).
  cbv zeta in F3. unfold Services.default_model, Services.llama_model in F3.
  split; [reflexivity|].
  split; [exact F1|]. split; [exact F4|]. split; [|split].
  - unfold Services.use_groq. rewrite String.eqb_eq. split.
    + destruct USE_GROQ as [v|]; [eauto | discriminate].
    + intros (v & -> & Hv). exact Hv.
  - intros G. rewrite G in F2, F3. auto.
  - intros G. rewrite G in F2, F3. cbn [andb] in F3.
    split; [exact F2|]. split; intros D; rewrite D in F3; exact F3.
Qed.

(** X13: [text_completion] makes the request of [chat_completion] on one user
    message holding the prompt (or on the list of messages it was given).  The
    model it asks for is the [model] keyword argument when there is one, else
    the [engine] argument, else ["gpt-4o-mini"]; neither of them, nor [chat],
    reaches the service as a keyword argument, and every other keyword
    argument does.  A [prompt] or [messages] keyword argument is refused
    before the service is called. *)
Theorem text_completion_is_a_chat_completion
    (USE_GROQ : option string)
    (create : Services.ApiCall -> Services.result (option string))
    (prompt : Services.Prompt) (given : kwargs) :
  let messages :=
    match prompt with
    | Services.PromptMessages msgs => msgs
    | Services.PromptText text => [mkMessage user text]
    end in
  let wanted :=
    match assoc "model" given with
    | Some m => m
    | None =>
        match assoc "engine" given with Some e => e | None => JStr "gpt-4o-mini" end
    end in
  if has_key "prompt" given || has_key "messages" given
  then Services.text_completion USE_GROQ create prompt given
       = Services.Throw Services.DuplicateArgument
  else
    exists call,
      Services.text_completion USE_GROQ create prompt given = create call
      /\ Services.api_messages call = messages
      /\ Services.provider call
         = (if Services.use_groq USE_GROQ then Services.Groq else Services.OpenAI)
      /\ Services.api_model call
         = (if Services.use_groq USE_GROQ && Services.is_openai_default wanted
            then JStr "llama-3.3-70b-versatile" else wanted)
      /\ (forall k,
             assoc k (Services.api_kwargs call)
             = if String.eqb k "model" || String.eqb k "engine" || String.eqb k "chat"
               then None else assoc k given).
Proof.
  cbv zeta. unfold Services.text_completion.
  destruct (has_key "prompt" given); [reflexivity|]. cbn [orb].
  set (kw := remove_key "engine" (remove_key "chat" given)).
  assert ((if has_key "model" kw then remove_key "model" kw else kw)
          = remove_key "model" kw) as ->.
  { destruct (has_key "model" kw) eqn:E; [reflexivity|].
    symmetry. now apply remove_key_absent. }
  assert (assoc "model" kw = assoc "model" given) as ->
    by (subst kw; now rewrite !assoc_remove_key).
  unfold Services.chat_completion.
  assert (has_key "messages" (("model",
             match assoc "model" given with
             | Some m => m
             | None =>
                 match assoc "engine" given with
                 | Some e => e
                 | None => Services.default_model
                 end
             end) :: remove_key "model" kw)
          = has_key "messages" given) as ->.
  { unfold has_key at 1. cbn [assoc String.eqb Ascii.eqb Bool.eqb].
    subst kw. rewrite !assoc_remove_key. reflexivity. }
  destruct (has_key "messages" given); [reflexivity|].
  eexists. split; [reflexivity|].
  match goal with
  | |- context [Services.chat_completion_call ?g ?m ?k] =>
      destruct (chat_completion_call_facts g m k) as (F1 & F2 & F3 & F4)
  end.
  cbv zeta in F3. cbn [assoc String.eqb Ascii.eqb Bool.eqb] in F3.
  assert (assoc "engine" (remove_key "model" kw) = None) as He
    by (subst kw; now rewrite !assoc_remove_key).
  rewrite He in F3.
  split; [exact F1|]. split; [exact F2|]. split.
  - rewrite F3. unfold Services.default_model, Services.llama_model.
    destruct (assoc "model" given); reflexivity.
  - intros k. rewrite F4. cbn [assoc]. subst kw. rewrite !assoc_remove_key.
    destruct (String.eqb k "model"), (String.eqb k "engine"), (String.eqb k "chat");
      reflexivity.
Qed.

(** ** Words *)

Lemma isspace_lower_char (c : ascii) :
  PyStr.isspace (PyStrMore.lower_char c) = PyStr.isspace c.
Proof. destruct c as [[] [] [] [] [] [] [] []]; vm_compute; reflexivity. Qed.

Lemma lower_char_idem (c : ascii) :
  PyStrMore.lower_char (PyStrMore.lower_char c) = PyStrMore.lower_char c.
Proof. destruct c as [[] [] [] [] [] [] [] []]; vm_compute; reflexivity. Qed.

Lemma lower_idem (s : string) : PyStrMore.lower (PyStrMore.lower s) = PyStrMore.lower s.
Proof.
  induction s as [|c s IH]; [reflexivity|].
  cbn. now rewrite lower_char_idem, IH.
Qed.

Lemma lstrip_lower (s : string) :
  PyStr.lstrip (PyStrMore.lower s) = PyStrMore.lower (PyStr.lstrip s).
Proof.
  induction s as [|c s IH]; [reflexivity|].
  cbn [PyStrMore.lower PyStr.lstrip]. rewrite isspace_lower_char.
  destruct (PyStr.isspace c); [exact IH | reflexivity].
Qed.

Lemma rstrip_lower (s : string) :
  PyStr.rstrip (PyStrMore.lower s) = PyStrMore.lower (PyStr.rstrip s).
Proof.
  induction s as [|c s IH]; [reflexivity|].
  cbn [PyStrMore.lower PyStr.rstrip]. rewrite IH, isspace_lower_char.
  destruct (PyStr.rstrip s); cbn [PyStrMore.lower];
    [destruct (PyStr.isspace c)|]; reflexivity.
Qed.

Lemma rstrip_idem (s : string) : PyStr.rstrip (PyStr.rstrip s) = PyStr.rstrip s.
Proof.
  induction s as [|c s IH]; [reflexivity|].
  cbn [PyStr.rstrip].
  destruct (PyStr.rstrip s) as [|c' r] eqn:E.
  - destruct (PyStr.isspace c) eqn:Ec; [reflexivity|]. cbn. now rewrite Ec.
  - cbn [PyStr.rstrip]. cbn [PyStr.rstrip] in IH.
    now rewrite IH.
Qed.

Lemma lstrip_head_ok (s : string) : head_ok (PyStr.lstrip s).
Proof.
  induction s as [|c s IH]; [exact I|].
  cbn [PyStr.lstrip]. destruct (PyStr.isspace c) eqn:E; [exact IH | exact E].
Qed.

Lemma rstrip_head_ok (s : string) : head_ok s -> head_ok (PyStr.rstrip s).
Proof.
  destruct s as [|c s]; [trivial|]. cbn [head_ok PyStr.rstrip]. intros E.
  destruct (PyStr.rstrip s); [rewrite E|]; exact E.
Qed.

Lemma lstrip_fixed (s : string) : head_ok s -> PyStr.lstrip s = s.
Proof. destruct s as [|c s]; [reflexivity|]. cbn. now intros ->. Qed.

Lemma rstrip_blank (s : string) : PyStr.blank s = true -> PyStr.rstrip s = EmptyString.
Proof.
  induction s as [|c s IH]; [reflexivity|].
  cbn. intros [Hc Hs]%andb_prop. now rewrite (IH Hs), Hc.
Qed.

Lemma rstrip_append_blank (a b : string) :
  PyStr.blank b = true -> PyStr.rstrip (String.append a b) = PyStr.rstrip a.
Proof.
  intros Hb. induction a as [|c a IH]; [now apply rstrip_blank|].
  cbn [String.append PyStr.rstrip]. now rewrite IH.
Qed.

Lemma rstrip_no_space (s : string) : PyStrMore.no_space s = true -> PyStr.rstrip s = s.
Proof.
  induction s as [|c s IH]; [reflexivity|].
  cbn. intros [Hc Hs]%andb_prop. rewrite (IH Hs).
  apply negb_true_iff in Hc. rewrite Hc. destruct s; reflexivity.
Qed.

(** What one pass of the split knows about the word it is reading and the
    words behind it. *)
Lemma split_aux_spec (s : string) :
  let (word, words) := PyStrMore.split_aux s in
  PyStrMore.no_space word = true
  /\ Forall (fun x => PyStrMore.no_space x = true) words
  /\ (words = [] -> exists rest, s = String.append word rest /\ PyStr.blank rest = true)
  /\ (word = EmptyString -> ~ head_ok s \/ s = EmptyString).
Proof.
  induction s as [|c s IH]; cbn [PyStrMore.split_aux].
  - repeat split; auto. intros _. exists EmptyString. auto.
  - destruct (PyStrMore.split_aux s) as [word words].
    destruct IH as (Hw & Hws & Hrest & Hhead).
    destruct (PyStr.isspace c) eqn:Ec.
    + repeat split; auto.
      * destruct word; [exact Hws | constructor; assumption].
      * intros Hnil. exists (String c s). split; [reflexivity|].
        destruct word; [|discriminate].
        destruct (Hrest Hnil) as (rest & -> & Hb). cbn. now rewrite Ec.
      * intros _. left. cbn. congruence.
    + repeat split; auto.
      * cbn. now rewrite Ec, Hw.
      * intros Hnil. destruct (Hrest Hnil) as (rest & -> & Hb).
        exists rest. auto.
      * discriminate.
Qed.

Lemma split_words_no_space (s : string) :
  Forall (fun x => PyStrMore.no_space x = true) (PyStrMore.split s).
Proof.
  unfold PyStrMore.split. pose proof (split_aux_spec s) as H.
  destruct (PyStrMore.split_aux s) as [word words].
  destruct H as (Hw & Hws & _).
  destruct word; [exact Hws | constructor; assumption].
Qed.

(** A stripped string with at most one word has no whitespace in it. *)
Lemma one_word_no_space (s : string) :
  head_ok s -> PyStr.rstrip s = s ->
  List.length (PyStrMore.split s) <= 1 ->
  PyStrMore.no_space s = true.
Proof.
  intros Hhead Hr Hlen. unfold PyStrMore.split in Hlen.
  pose proof (split_aux_spec s) as H.
  destruct (PyStrMore.split_aux s) as [word words].
  destruct H as (Hw & _ & Hrest & Hempty).
  destruct word as [|c word].
  - destruct (Hempty eq_refl) as [Hno | ->]; [contradiction | reflexivity].
  - destruct words; [|cbn in Hlen; lia].
    destruct (Hrest eq_refl) as (rest & Hs & Hb).
    rewrite Hs, (rstrip_append_blank _ _ Hb), (rstrip_no_space _ Hw) in Hr.
    rewrite Hs, <- Hr. exact Hw.
Qed.

Lemma split_aux_lower (s : string) :
  PyStrMore.split_aux (PyStrMore.lower s)
  = (PyStrMore.lower (fst (PyStrMore.split_aux s)),
     map PyStrMore.lower (snd (PyStrMore.split_aux s))).
Proof.
  induction s as [|c s IH]; [reflexivity|].
  cbn [PyStrMore.lower PyStrMore.split_aux]. rewrite IH, isspace_lower_char.
  destruct (PyStrMore.split_aux s) as [word words]. cbn [fst snd].
  destruct (PyStr.isspace c); [|reflexivity].
  destruct word; reflexivity.
Qed.

Lemma split_lower (s : string) :
  PyStrMore.split (PyStrMore.lower s) = map PyStrMore.lower (PyStrMore.split s).
Proof.
  unfold PyStrMore.split. rewrite split_aux_lower.
  destruct (PyStrMore.split_aux s) as [word words]. cbn [fst snd].
  destruct word; reflexivity.
Qed.

Lemma detected_language_word (result_text : string) :
  PyStrMore.no_space (Services.detected_language result_text) = true
  /\ PyStrMore.lower (Services.detected_language result_text)
     = Services.detected_language result_text.
Proof.
  unfold Services.detected_language.
  set (x := PyStr.strip (PyStrMore.sub_arrow false result_text)).
  destruct (Nat.ltb_spec 1 (List.length (PyStrMore.split (PyStrMore.lower x)))) as [Hlt|Hle].
  - pose proof (split_words_no_space (PyStrMore.lower x)) as Hws.
    rewrite split_lower in *.
    destruct (PyStrMore.split x) as [|w ws]; [cbn in Hlt; lia|].
    cbn [map hd]. inversion Hws; subst. split; [assumption | apply lower_idem].
  - split; [|apply lower_idem].
    apply one_word_no_space; [| |exact Hle].
    + rewrite <- (lstrip_fixed x) by (apply rstrip_head_ok, lstrip_head_ok).
      rewrite <- lstrip_lower. apply lstrip_head_ok.
    + rewrite rstrip_lower. subst x. unfold PyStr.strip. now rewrite rstrip_idem.
Qed.

(** X14: whatever the completion service answers, a language that
    [language_detection] returns is one lower-case word: it contains no
    whitespace (so neither a newline nor the [" ->"] of the prompt) and
    lower-casing it again changes nothing.  When it raises, the exception is
    that of [format] on the prompt it was given, the [TypeError] of a keyword
    argument given twice, the failure of the service, or the [TypeError] of
    [re.sub] on an answer without content. *)
Theorem language_detection_returns_one_word
    (USE_GROQ : option string)
    (create : Services.ApiCall -> Services.result (option string))
    (format : string -> list (string * string) -> Services.result string)
    (text engine : string) (prompt : option string)
    (examples : option (list (string * string))) (kw : kwargs) :
  match Services.language_detection USE_GROQ create format text engine prompt examples kw with
  | Services.Return lang =>
      PyStrMore.no_space lang = true /\ PyStrMore.lower lang = lang
  | Services.Throw e =>
      (exists p, prompt = Some p /\ format p [("text", text)] = Services.Throw e)
      \/ e = Services.DuplicateArgument
      \/ (exists call, create call = Services.Throw e)
      \/ (e = Services.NotAString /\ exists call, create call = Services.Return None)
  end.
Proof.
  unfold Services.language_detection, Services.language_prompt.
  destruct prompt as [p|].
  - destruct (format p _) as [p0|e] eqn:F; [|left; eauto].
    destruct (String.eqb engine "gpt-3.5-turbo").
    + unfold Services.chat_completion.
      repeat match goal with
             | |- context [if ?b then Services.Throw _ else _] =>
                 destruct b; [right; left; reflexivity|]
             end.
      destruct (create _) as [[c|]|e] eqn:E;
        [apply detected_language_word | right; right; right; eauto
        | right; right; left; eauto].
    + unfold Services.text_completion, Services.chat_completion.
      repeat match goal with
             | |- context [if ?b then Services.Throw _ else _] =>
                 destruct b; [right; left; reflexivity|]
             end.
      destruct (create _) as [[c|]|e] eqn:E;
        [apply detected_language_word | right; right; right; eauto
        | right; right; left; eauto].
  - destruct (String.eqb engine "gpt-3.5-turbo").
    + unfold Services.chat_completion.
      repeat match goal with
             | |- context [if ?b then Services.Throw _ else _] =>
                 destruct b; [right; left; reflexivity|]
             end.
      destruct (create _) as [[c|]|e] eqn:E;
        [apply detected_language_word | right; right; right; eauto
        | right; right; left; eauto].
    + unfold Services.text_completion, Services.chat_completion.
      repeat match goal with
             | |- context [if ?b then Services.Throw _ else _] =>
                 destruct b; [right; left; reflexivity|]
             end.
      destruct (create _) as [[c|]|e] eqn:E;
        [apply detected_language_word | right; right; right; eauto
        | right; right; left; eauto].
Qed.

(** ** Images *)

(** X15: what [text_to_image] returns when asked for a URL.  A URL it returns
    is the [url] of the first item the service answered with and is never
    empty; it returns [None] exactly when the service answered with no item
    or with a first item without a URL; and a failure is the failure of the
    service, unless the keyword arguments clash with the arguments the
    function passes itself. *)
Theorem text_to_image_returns_a_reference
    (generate : string -> kwargs -> Services.result (list (option string)))
    (download : string -> Services.result string)
    (prompt : string) (kw : kwargs) :
  let params := update [("n", JNum 1); ("size", JStr "1024x1024")] kw in
  match Services.text_to_image generate download prompt true kw with
  | Services.Return (Some url) =>
      url <> EmptyString
      /\ exists rest, generate prompt params = Services.Return (Some url :: rest)
  | Services.Return None =>
      generate prompt params = Services.Return []
      \/ exists rest,
           generate prompt params = Services.Return (None :: rest)
           \/ generate prompt params = Services.Return (Some EmptyString :: rest)
  | Services.Throw e =>
      (e = Services.DuplicateArgument
       /\ has_key "prompt" params || has_key "model" params = true)
      \/ generate prompt params = Services.Throw e
  end.
Proof.
  cbv zeta. unfold Services.text_to_image.
  destruct (has_key "prompt" _ || has_key "model" _) eqn:Hclash; [left; auto|].
  destruct (generate prompt _) as [[|[url|] rest]|e] eqn:G; eauto.
  unfold PyStr.truthy.
  destruct (String.eqb url EmptyString) eqn:E; cbn [negb].
  - apply String.eqb_eq in E. subst url. eauto.
  - apply String.eqb_neq in E. split; eauto.
Qed.





(** ** Who is written to *)

Lemma runs_cloud_active_turn
    (net_ok : nat -> bool)
    (chatgpt_completion : list Message -> outcome string)
    (text_to_image : string -> outcome (option string))
    (language_detection : string -> outcome string)
    (verify_image_generation : string -> string * option string)
    (text from : string) :
  runs (sends_to from) kept_as_infix
    (cloud_active_turn net_ok chatgpt_completion text_to_image language_detection
       verify_image_generation text from).
Proof.
  unfold cloud_active_turn, cloud_reply_steps, cloud_relay, cloud_image_step,
    check_and_send_image_generation, ensure_user_language, generate_reply,
    cloud_send_message, cloud_send_image.
  walk_all.
  all: cbn [sends_to]; apply String.eqb_refl.
Qed.

Lemma runs_cloud_resolve_system
    (format : string -> list (string * string) -> outcome string)
    (start_template : option string) (today sender_name from : string) :
  runs (sends_to from) kept_as_infix
    (cloud_resolve_system format start_template today sender_name).
Proof.
  unfold cloud_resolve_system.
  walk_all.
Qed.

(** X18: everything the Cloud handler sends while it handles a text message
    goes to the sender of that message: the chunks of the reply, the image and
    the apology for a failed image all have the [from] of the webhook as their
    recipient. *)
Theorem cloud_replies_to_the_sender
    (net_ok : nat -> bool)
    (chatgpt_completion : list Message -> outcome string)
    (text_to_image : string -> outcome (option string))
    (language_detection : string -> outcome string)
    (verify_image_generation : string -> string * option string)
    (format : string -> list (string * string) -> outcome string)
    (start_template : option string) (today : string)
    (from display_name id timestamp body : string) (w : World) :
  exists evs,
    trace (snd (process_webhook net_ok chatgpt_completion text_to_image
                  language_detection verify_image_generation format start_template
                  today (text_webhook from display_name id timestamp body) w))
    = trace w ++ evs
    /\ forallb (sends_to from) evs = true.
Proof.
  rewrite cloud_handler_world, cloud_text_webhook_body.
  assert (runs (sends_to from) kept_as_infix
            (cloud_intake net_ok format start_template today id display_name ;;
             cloud_active_turn net_ok chatgpt_completion text_to_image
               language_detection verify_image_generation body from)) as H.
  { apply runs_bind; try rside; [|intros _; apply runs_cloud_active_turn].
    unfold cloud_intake, cloud_mark_as_read.
    apply runs_bind; try rside; [walk_all|].
    intros _. apply runs_cloud_resolve_system. }
  destruct (H w) as (evs & Ht & Hp & _). exists evs. auto.
Qed.
